(** * NoneCipherTransport: an SSH transport that can negotiate the null cipher and MAC

    A shallow embedding of [none_cipher_transport.py] (the transport subclass)
    and of the server interface of [ssh_server.py], with the properties the
    specification states about them.

    The transport is a Python object whose methods mutate [self] and call
    collaborators (the packetizer, the logger, the key-derivation function).
    Methods are embedded in a state-and-exception monad over the instance
    state; every call to a collaborator is also recorded, in order, in the
    instance's [calls] list, so that statements about what is called, how often
    and in which order can be made.  The tables [_cipher_info], [_mac_info] and
    [_compression_info] are attributes of the class, shared by all instances;
    they live in a separate [ClassState]. *)

From Stdlib Require Import ZArith String Ascii List Bool Lia.
From stdpp Require Import gmap strings list fin_maps pretty.

Open Scope string_scope.
Open Scope list_scope.

(** ** Python values used by the transport *)

Definition bytes := list Byte.byte.

(** Exceptions the modelled statements can raise. *)
Inductive exn :=
| KeyError (key : string)        (* d[key] on a dict without that key *)
| TypeError (what : string)      (* calling None *)
| SSHException (what : string).  (* raised by the parent class *)

Inductive result (A : Type) :=
| Ok (a : A)
| Raise (e : exn).
Arguments Ok {A} a.
Arguments Raise {A} e.

(** [s.endswith(suffix)] *)
Definition endswith (s suffix : string) : bool :=
  let n := String.length s in
  let m := String.length suffix in
  (m <=? n)%nat && String.eqb (String.substring (n - m) m s) suffix.

(** [needle in s] for strings *)
Fixpoint str_contains (needle s : string) : bool :=
  String.prefix needle s ||
  match s with
  | EmptyString => false
  | String _ s' => str_contains needle s'
  end.

Arguments endswith : simpl never.
Arguments str_contains : simpl never.

(** [sep.join(xs)] *)
Fixpoint join (sep : string) (xs : list string) : string :=
  match xs with
  | [] => ""
  | [x] => x
  | x :: rest => x +:+ sep +:+ join sep rest
  end.

(** [sorted(d.items())] for a dict with string keys, given as its item list. *)
Fixpoint insert_item (kv : string * string) (l : list (string * string))
  : list (string * string) :=
  match l with
  | [] => [kv]
  | kv' :: l' =>
      if String.leb (fst kv) (fst kv') then kv :: l else kv' :: insert_item kv l'
  end.

Definition sorted_items (l : list (string * string)) : list (string * string) :=
  foldr insert_item [] l.

(** ** Messages, as the sequence of fields added to a [Message()] *)

Inductive field :=
| MByte (b : Z)
| MInt (n : Z)
| MString (s : string).

Definition Message := list field.

Definition add_byte (b : Z) (m : Message) : Message := m ++ [MByte b].
Definition add_int (n : Z) (m : Message) : Message := m ++ [MInt n].
Definition add_string (s : string) (m : Message) : Message := m ++ [MString s].

(** Message numbers of [paramiko.common] (RFC 4253 and RFC 8308). *)
Definition MSG_NEWKEYS : Z := 21.
Definition MSG_EXT_INFO : Z := 7.
Definition cMSG_NEWKEYS : Z := MSG_NEWKEYS.
Definition cMSG_EXT_INFO : Z := MSG_EXT_INFO.

(** ** Algorithm tables *)

(** An entry of [_cipher_info].  ["iv-size"] and ["is_aead"] are read with
    [dict.get] and may be absent. *)
Record CipherInfo := {
  ci_class : option string;
  ci_mode : option string;
  ci_block_size : Z;
  ci_key_size : Z;
  ci_iv_size : option Z;
  ci_is_aead : option bool
}.

(** A hash class, as far as activation uses it: [cls().digest_size]. *)
Record HashClass := {
  hash_name : string;
  digest_size : Z
}.

(** An entry of [_mac_info]. *)
Record MacInfo := {
  mi_class : option HashClass;
  mi_size : Z
}.

(** Compressor classes and their instances. *)
Record CompressorClass := { compressor_class_name : string }.
Record Compressor := { compressor_of : CompressorClass }.

(** The class attributes shared by every transport of the process. *)
Record ClassState := {
  _cipher_info : gmap string CipherInfo;
  _mac_info : gmap string MacInfo;
  _compression_info : gmap string (option CompressorClass * option CompressorClass);
  class_preferred_ciphers : list string;
  class_preferred_macs : list string
}.

(** ** The packetizer, as far as the transport configures it *)

Inductive Operation := _ENCRYPT | _DECRYPT.

(** A cipher object, identified by the arguments it was built from. *)
Record Engine := {
  eng_name : string;
  eng_key : bytes;
  eng_iv : option bytes;
  eng_operation : Operation;
  eng_aead : bool
}.

(** The keyword arguments of [set_inbound_cipher] / [set_outbound_cipher]
    ([sdctr] exists for the outbound direction only and stays [false]
    inbound). *)
Record CipherState := {
  block_engine : option Engine;
  block_size : Z;
  mac_engine : option HashClass;
  mac_size : Z;
  mac_key : option bytes;
  sdctr : bool;
  etm : bool;
  aead : bool;
  aead_iv : option bytes
}.

Record Packetizer := {
  cipher_in : option CipherState;
  cipher_out : option CipherState;
  compressor_in : option Compressor;
  compressor_out : option Compressor;
  seqno_in : Z;
  seqno_out : Z
}.

(** Calls to collaborators, in the order they are made. *)
Inductive call :=
| Log (msg : string)
| SendMessage (m : Message)
| ComputeKey (id : string) (nbytes : Z)
| SetInboundCipher (c : CipherState)
| SetOutboundCipher (c : CipherState)
| SetInboundCompressor (c : Compressor)
| SetOutboundCompressor (c : Compressor)
| ResetSeqnoIn
| ResetSeqnoOut
| ExpectPacket (ptype : Z).

(** ** The transport instance *)

Record SessionSecrets := {
  secret_K : Z;
  secret_H : bytes;
  session_id : bytes
}.

Record Channel := {
  chan_kind : string;
  chan_closed : bool
}.

Record Transport := {
  server_mode : bool;
  authenticated : bool;
  agreed_on_strict_kex : bool;
  server_sig_algs : bool;
  _remote_ext_info : option string;
  local_cipher : string;
  remote_cipher : string;
  local_mac : string;
  remote_mac : string;
  local_compression : string;
  remote_compression : string;
  preferred_pubkeys : list string;
  _preferred_ciphers : option (list string);   (* instance attribute, if set *)
  _preferred_macs : option (list string);      (* instance attribute, if set *)
  secrets : SessionSecrets;
  in_kex : bool;
  _expected_packet : list Z;
  packetizer : Packetizer;
  _channels : gmap nat Channel;
  calls : list call
}.

Definition set_calls (f : list call -> list call) (t : Transport) : Transport :=
  {| server_mode := server_mode t; authenticated := authenticated t;
     agreed_on_strict_kex := agreed_on_strict_kex t;
     server_sig_algs := server_sig_algs t;
     _remote_ext_info := _remote_ext_info t;
     local_cipher := local_cipher t; remote_cipher := remote_cipher t;
     local_mac := local_mac t; remote_mac := remote_mac t;
     local_compression := local_compression t;
     remote_compression := remote_compression t;
     preferred_pubkeys := preferred_pubkeys t;
     _preferred_ciphers := _preferred_ciphers t;
     _preferred_macs := _preferred_macs t;
     secrets := secrets t; in_kex := in_kex t;
     _expected_packet := _expected_packet t;
     packetizer := packetizer t; _channels := _channels t;
     calls := f (calls t) |}.

Definition set_packetizer (f : Packetizer -> Packetizer) (t : Transport) : Transport :=
  {| server_mode := server_mode t; authenticated := authenticated t;
     agreed_on_strict_kex := agreed_on_strict_kex t;
     server_sig_algs := server_sig_algs t;
     _remote_ext_info := _remote_ext_info t;
     local_cipher := local_cipher t; remote_cipher := remote_cipher t;
     local_mac := local_mac t; remote_mac := remote_mac t;
     local_compression := local_compression t;
     remote_compression := remote_compression t;
     preferred_pubkeys := preferred_pubkeys t;
     _preferred_ciphers := _preferred_ciphers t;
     _preferred_macs := _preferred_macs t;
     secrets := secrets t; in_kex := in_kex t;
     _expected_packet := _expected_packet t;
     packetizer := f (packetizer t); _channels := _channels t;
     calls := calls t |}.

Definition set_in_kex (b : bool) (t : Transport) : Transport :=
  {| server_mode := server_mode t; authenticated := authenticated t;
     agreed_on_strict_kex := agreed_on_strict_kex t;
     server_sig_algs := server_sig_algs t;
     _remote_ext_info := _remote_ext_info t;
     local_cipher := local_cipher t; remote_cipher := remote_cipher t;
     local_mac := local_mac t; remote_mac := remote_mac t;
     local_compression := local_compression t;
     remote_compression := remote_compression t;
     preferred_pubkeys := preferred_pubkeys t;
     _preferred_ciphers := _preferred_ciphers t;
     _preferred_macs := _preferred_macs t;
     secrets := secrets t; in_kex := b;
     _expected_packet := _expected_packet t;
     packetizer := packetizer t; _channels := _channels t;
     calls := calls t |}.

Definition set_expected_packet (l : list Z) (t : Transport) : Transport :=
  {| server_mode := server_mode t; authenticated := authenticated t;
     agreed_on_strict_kex := agreed_on_strict_kex t;
     server_sig_algs := server_sig_algs t;
     _remote_ext_info := _remote_ext_info t;
     local_cipher := local_cipher t; remote_cipher := remote_cipher t;
     local_mac := local_mac t; remote_mac := remote_mac t;
     local_compression := local_compression t;
     remote_compression := remote_compression t;
     preferred_pubkeys := preferred_pubkeys t;
     _preferred_ciphers := _preferred_ciphers t;
     _preferred_macs := _preferred_macs t;
     secrets := secrets t; in_kex := in_kex t;
     _expected_packet := l;
     packetizer := packetizer t; _channels := _channels t;
     calls := calls t |}.

Definition set_preferred_ciphers (l : list string) (t : Transport) : Transport :=
  {| server_mode := server_mode t; authenticated := authenticated t;
     agreed_on_strict_kex := agreed_on_strict_kex t;
     server_sig_algs := server_sig_algs t;
     _remote_ext_info := _remote_ext_info t;
     local_cipher := local_cipher t; remote_cipher := remote_cipher t;
     local_mac := local_mac t; remote_mac := remote_mac t;
     local_compression := local_compression t;
     remote_compression := remote_compression t;
     preferred_pubkeys := preferred_pubkeys t;
     _preferred_ciphers := Some l;
     _preferred_macs := _preferred_macs t;
     secrets := secrets t; in_kex := in_kex t;
     _expected_packet := _expected_packet t;
     packetizer := packetizer t; _channels := _channels t;
     calls := calls t |}.

Definition set_preferred_macs (l : list string) (t : Transport) : Transport :=
  {| server_mode := server_mode t; authenticated := authenticated t;
     agreed_on_strict_kex := agreed_on_strict_kex t;
     server_sig_algs := server_sig_algs t;
     _remote_ext_info := _remote_ext_info t;
     local_cipher := local_cipher t; remote_cipher := remote_cipher t;
     local_mac := local_mac t; remote_mac := remote_mac t;
     local_compression := local_compression t;
     remote_compression := remote_compression t;
     preferred_pubkeys := preferred_pubkeys t;
     _preferred_ciphers := _preferred_ciphers t;
     _preferred_macs := Some l;
     secrets := secrets t; in_kex := in_kex t;
     _expected_packet := _expected_packet t;
     packetizer := packetizer t; _channels := _channels t;
     calls := calls t |}.

(** Packetizer methods the transport calls. *)
Definition pk_set_inbound_cipher (c : CipherState) (p : Packetizer) : Packetizer :=
  {| cipher_in := Some c; cipher_out := cipher_out p;
     compressor_in := compressor_in p; compressor_out := compressor_out p;
     seqno_in := seqno_in p; seqno_out := seqno_out p |}.

Definition pk_set_outbound_cipher (c : CipherState) (p : Packetizer) : Packetizer :=
  {| cipher_in := cipher_in p; cipher_out := Some c;
     compressor_in := compressor_in p; compressor_out := compressor_out p;
     seqno_in := seqno_in p; seqno_out := seqno_out p |}.

Definition pk_set_inbound_compressor (c : Compressor) (p : Packetizer) : Packetizer :=
  {| cipher_in := cipher_in p; cipher_out := cipher_out p;
     compressor_in := Some c; compressor_out := compressor_out p;
     seqno_in := seqno_in p; seqno_out := seqno_out p |}.

Definition pk_set_outbound_compressor (c : Compressor) (p : Packetizer) : Packetizer :=
  {| cipher_in := cipher_in p; cipher_out := cipher_out p;
     compressor_in := compressor_in p; compressor_out := Some c;
     seqno_in := seqno_in p; seqno_out := seqno_out p |}.

Definition pk_reset_seqno_in (p : Packetizer) : Packetizer :=
  {| cipher_in := cipher_in p; cipher_out := cipher_out p;
     compressor_in := compressor_in p; compressor_out := compressor_out p;
     seqno_in := 0; seqno_out := seqno_out p |}.

Definition pk_reset_seqno_out (p : Packetizer) : Packetizer :=
  {| cipher_in := cipher_in p; cipher_out := cipher_out p;
     compressor_in := compressor_in p; compressor_out := compressor_out p;
     seqno_in := seqno_in p; seqno_out := 0 |}.

(** ** The method monad: state of [self], with exceptions *)

Definition M (A : Type) : Type := Transport -> result (A * Transport).

Definition M_ret {A} (a : A) : M A := fun t => Ok (a, t).

Definition M_bind {A B} (k : A -> M B) (m : M A) : M B :=
  fun t =>
    match m t with
    | Ok (a, t') => k a t'
    | Raise e => Raise e
    end.

#[global] Instance M_mret : MRet M := @M_ret.
#[global] Instance M_mbind : MBind M := @M_bind.

Definition raise {A} (e : exn) : M A := fun _ => Raise e.
Definition attr {A} (f : Transport -> A) : M A := fun t => Ok (f t, t).
Definition update (f : Transport -> Transport) : M unit := fun t => Ok (tt, f t).
Definition record (c : call) : M unit := update (set_calls (fun l => l ++ [c])).

(** [d[key]] *)
Definition getitem {V} (d : gmap string V) (key : string) : M V :=
  match d !! key with
  | Some v => mret v
  | None => raise (KeyError key)
  end.

(** Running a method for its final state. *)
Definition exec {A} (m : M A) (t : Transport) : result Transport :=
  match m t with
  | Ok (_, t') => Ok t'
  | Raise e => Raise e
  end.

(** ** The transport class *)

Definition set_cipher_info (f : gmap string CipherInfo -> gmap string CipherInfo)
    (cls : ClassState) : ClassState :=
  {| _cipher_info := f (_cipher_info cls); _mac_info := _mac_info cls;
     _compression_info := _compression_info cls;
     class_preferred_ciphers := class_preferred_ciphers cls;
     class_preferred_macs := class_preferred_macs cls |}.

Definition set_mac_info (f : gmap string MacInfo -> gmap string MacInfo)
    (cls : ClassState) : ClassState :=
  {| _cipher_info := _cipher_info cls; _mac_info := f (_mac_info cls);
     _compression_info := _compression_info cls;
     class_preferred_ciphers := class_preferred_ciphers cls;
     class_preferred_macs := class_preferred_macs cls |}.

(** The records [__init__] registers under ["none"]. *)
Definition none_cipher_info : CipherInfo :=
  {| ci_class := None; ci_mode := None; ci_block_size := 8;
     ci_key_size := 0; ci_iv_size := Some 0%Z; ci_is_aead := Some false |}.

Definition none_mac_info : MacInfo :=
  {| mi_class := None; mi_size := 0 |}.

(** Inherited helpers of the transport, in terms of the recorded calls. *)
Definition _log (msg : string) : M unit := record (Log msg).

Definition _send_message (m : Message) : M unit := record (SendMessage m).

Definition _expect_packet (ptype : Z) : M unit :=
  record (ExpectPacket ptype);; update (set_expected_packet [ptype]).

Definition set_inbound_cipher (c : CipherState) : M unit :=
  record (SetInboundCipher c);; update (set_packetizer (pk_set_inbound_cipher c)).

Definition set_outbound_cipher (c : CipherState) : M unit :=
  record (SetOutboundCipher c);; update (set_packetizer (pk_set_outbound_cipher c)).

Definition set_inbound_compressor (c : Compressor) : M unit :=
  record (SetInboundCompressor c);;
  update (set_packetizer (pk_set_inbound_compressor c)).

Definition set_outbound_compressor (c : Compressor) : M unit :=
  record (SetOutboundCompressor c);;
  update (set_packetizer (pk_set_outbound_compressor c)).

Definition reset_seqno_in : M unit :=
  record ResetSeqnoIn;; update (set_packetizer pk_reset_seqno_in).

Definition reset_seqno_out : M unit :=
  record ResetSeqnoOut;; update (set_packetizer pk_reset_seqno_out).

(** [cls().digest_size] for an entry's ["class"], which is [None] for the
    null MAC. *)
Definition call_digest_size (c : option HashClass) : M Z :=
  match c with
  | Some h => mret (digest_size h)
  | None => raise (TypeError "'NoneType' object is not callable")
  end.

(** [getattr(self, '_remote_ext_info', None) == "ext-info-c"] *)
Definition remote_ext_info_is (t : Transport) (s : string) : bool :=
  match _remote_ext_info t with
  | Some v => String.eqb v s
  | None => false
  end.

Section NoneCipherTransport.

(** What the class inherits from or asks of [paramiko.Transport] and its
    packetizer; the library is not part of the repository. *)
Variable parent_compute_key : SessionSecrets -> string -> Z -> bytes.
Variable parent_get_engine :
  string -> bytes -> option bytes -> Operation -> bool -> result Engine.
Variable parent_activate_inbound : ClassState -> M unit.
Variable parent_activate_outbound : ClassState -> M unit.
Variable need_rekey : Packetizer -> bool.
Variable _filter_algorithm : list string -> list string.

(** The properties [preferred_ciphers] and [preferred_macs]: the instance
    attribute when there is one, else the class attribute, as the parent
    presents it. *)
Definition preferred_ciphers (cls : ClassState) (self : Transport) : list string :=
  _filter_algorithm (default (class_preferred_ciphers cls) (_preferred_ciphers self)).

Definition preferred_macs (cls : ClassState) (self : Transport) : list string :=
  _filter_algorithm (default (class_preferred_macs cls) (_preferred_macs self)).

(** [NoneCipherTransport.__init__], applied to the instance as
    [super().__init__] leaves it. *)
Definition __init__ (cls : ClassState) (self : Transport) : ClassState * Transport :=
  let self := set_preferred_ciphers (preferred_ciphers cls self ++ ["none"]) self in
  let self := set_preferred_macs (preferred_macs cls self ++ ["none"]) self in
  let cls := set_cipher_info (insert "none" none_cipher_info) cls in
  let cls := set_mac_info (insert "none" none_mac_info) cls in
  (cls, self).

Definition _compute_key (id : string) (nbytes : Z) : M bytes :=
  s ← attr secrets;
  record (ComputeKey id nbytes);;
  mret (parent_compute_key s id nbytes).

Definition _get_engine (name : string) (key : bytes) (iv : option bytes)
    (operation : Operation) (aead : bool) : M (option Engine) :=
  if String.eqb name "none" then mret None
  else
    match parent_get_engine name key iv operation aead with
    | Ok e => mret (Some e)
    | Raise e => raise e
    end.

(** The first branch of [_activate_inbound]: the handling of ["none"]. *)
Definition _activate_inbound_none (cls : ClassState) : M unit :=
  _log "Activating inbound stream with 'none' algorithm.";;
  (* Cipher setup *)
  remote_cipher_name ← attr remote_cipher;
  info ← getitem (_cipher_info cls) remote_cipher_name;
  let aead := default false (ci_is_aead info) in
  let block_size := ci_block_size info in
  '(engine, iv_in) ←
    (if negb (String.eqb remote_cipher_name "none") then
       let key_size := ci_key_size info in
       let iv_size := default block_size (ci_iv_size info) in
       server ← attr server_mode;
       '(iv_in, key_in) ←
         (if server : bool then
            iv_in ← _compute_key "A" iv_size;
            key_in ← _compute_key "C" key_size;
            mret (iv_in, key_in)
          else
            iv_in ← _compute_key "B" iv_size;
            key_in ← _compute_key "D" key_size;
            mret (iv_in, key_in));
       engine ← _get_engine remote_cipher_name key_in (Some iv_in) _DECRYPT aead;
       mret (engine, Some iv_in)
     else mret (None, None));
  (* MAC setup *)
  remote_mac_name ← attr remote_mac;
  '(mac_engine, mac_key, mac_size, etm) ←
    (if negb (String.eqb remote_mac_name "none") && negb aead then
       mac_info ← getitem (_mac_info cls) remote_mac_name;
       let mac_size := mi_size mac_info in
       let mac_engine := mi_class mac_info in
       mac_key_len ← call_digest_size mac_engine;
       server ← attr server_mode;
       mac_key ← (if server : bool then _compute_key "E" mac_key_len
                  else _compute_key "F" mac_key_len);
       mret (mac_engine, Some mac_key, mac_size,
             str_contains "etm@openssh.com" remote_mac_name)
     else mret (None, None, if aead then 16%Z else 0%Z, false));
  (* Set packetizer *)
  set_inbound_cipher
    {| block_engine := engine; block_size := block_size;
       mac_engine := mac_engine; mac_size := mac_size; mac_key := mac_key;
       sdctr := false; etm := etm; aead := aead;
       aead_iv := if aead then iv_in else None |};;
  (* Compression *)
  remote_compression_name ← attr remote_compression;
  entry ← getitem (_compression_info cls) remote_compression_name;
  let compress_in := snd entry in
  is_authenticated ← attr authenticated;
  match compress_in with
  | Some cls_in =>
      if negb (String.eqb remote_compression_name "zlib@openssh.com")
         || is_authenticated
      then
        _log "Switching on inbound compression ...";;
        set_inbound_compressor {| compressor_of := cls_in |}
      else mret tt
  | None => mret tt
  end;;
  (* Strict KEX *)
  strict ← attr agreed_on_strict_kex;
  if strict : bool then
    _log "Resetting inbound seqno after NEWKEYS due to strict mode";;
    reset_seqno_in
  else mret tt.

Definition _activate_inbound (cls : ClassState) : M unit :=
  remote_cipher_name ← attr remote_cipher;
  remote_mac_name ← attr remote_mac;
  if String.eqb remote_cipher_name "none" || String.eqb remote_mac_name "none"
  then _activate_inbound_none cls
  else
    _log "Activating inbound stream using superclass method.";;
    parent_activate_inbound cls.

(** The extension-info message of [_activate_outbound]. *)
Definition ext_info_message (pubkeys : list string) : Message :=
  let extensions := [("server-sig-algs", join "," pubkeys)] in
  let m_ext := add_byte cMSG_EXT_INFO [] in
  let m_ext := add_int (Z.of_nat (length extensions)) m_ext in
  foldl (fun m nv => add_string (snd nv) (add_string (fst nv) m))
        m_ext (sorted_items extensions).

(** The first branch of [_activate_outbound]: the handling of ["none"]. *)
Definition _activate_outbound_none (cls : ClassState) : M unit :=
  _log "Activating outbound stream with 'none' algorithm.";;
  _send_message (add_byte cMSG_NEWKEYS []);;
  strict ← attr agreed_on_strict_kex;
  (if strict : bool then
     _log "Resetting outbound seqno after NEWKEYS due to strict mode";;
     reset_seqno_out
   else mret tt);;
  (* Cipher setup *)
  local_cipher_name ← attr local_cipher;
  info ← getitem (_cipher_info cls) local_cipher_name;
  let aead := default false (ci_is_aead info) in
  let block_size := ci_block_size info in
  '(engine, iv_out, sdctr) ←
    (if negb (String.eqb local_cipher_name "none") then
       let key_size := ci_key_size info in
       let iv_size := default block_size (ci_iv_size info) in
       server ← attr server_mode;
       '(iv_out, key_out) ←
         (if server : bool then
            iv_out ← _compute_key "B" iv_size;
            key_out ← _compute_key "D" key_size;
            mret (iv_out, key_out)
          else
            iv_out ← _compute_key "A" iv_size;
            key_out ← _compute_key "C" key_size;
            mret (iv_out, key_out));
       engine ← _get_engine local_cipher_name key_out (Some iv_out) _ENCRYPT aead;
       mret (engine, Some iv_out, endswith local_cipher_name "-ctr")
     else mret (None, None, false));
  (* MAC setup *)
  local_mac_name ← attr local_mac;
  '(mac_engine, mac_key, mac_size, etm) ←
    (if negb (String.eqb local_mac_name "none") && negb aead then
       mac_info ← getitem (_mac_info cls) local_mac_name;
       let mac_size := mi_size mac_info in
       let mac_engine := mi_class mac_info in
       mac_key_len ← call_digest_size mac_engine;
       server ← attr server_mode;
       mac_key ← (if server : bool then _compute_key "F" mac_key_len
                  else _compute_key "E" mac_key_len);
       mret (mac_engine, Some mac_key, mac_size,
             str_contains "etm@openssh.com" local_mac_name)
     else mret (None, None, if aead then 16%Z else 0%Z, false));
  (* Set packetizer *)
  set_outbound_cipher
    {| block_engine := engine; block_size := block_size;
       mac_engine := mac_engine; mac_size := mac_size; mac_key := mac_key;
       sdctr := sdctr; etm := etm; aead := aead;
       aead_iv := if aead then iv_out else None |};;
  (* Compression *)
  local_compression_name ← attr local_compression;
  entry ← getitem (_compression_info cls) local_compression_name;
  let compress_out := fst entry in
  is_authenticated ← attr authenticated;
  match compress_out with
  | Some cls_out =>
      if negb (String.eqb local_compression_name "zlib@openssh.com")
         || is_authenticated
      then
        _log "Switching on outbound compression ...";;
        set_outbound_compressor {| compressor_of := cls_out |}
      else mret tt
  | None => mret tt
  end;;
  (* Final steps *)
  pk ← attr packetizer;
  (if negb (need_rekey pk) then update (set_in_kex false) else mret tt);;
  server ← attr server_mode;
  sig_algs ← attr server_sig_algs;
  ext_c ← attr (fun t => remote_ext_info_is t "ext-info-c");
  (if server && sig_algs && ext_c then
     pubkeys ← attr preferred_pubkeys;
     _send_message (ext_info_message pubkeys)
   else mret tt);;
  _expect_packet MSG_NEWKEYS.

Definition _activate_outbound (cls : ClassState) : M unit :=
  local_cipher_name ← attr local_cipher;
  local_mac_name ← attr local_mac;
  if String.eqb local_cipher_name "none" || String.eqb local_mac_name "none"
  then _activate_outbound_none cls
  else
    _log "Activating outbound stream using superclass method.";;
    parent_activate_outbound cls.

End NoneCipherTransport.

(** ** The standard activation sequence *)

(** Key slots as RFC 4253, section 7.2, assigns them to the two directions
    of the connection. *)
Inductive Direction := client_to_server | server_to_client.
Inductive KeyPurpose := InitialIV | EncryptionKey | IntegrityKey.

Definition slot_letter (p : KeyPurpose) (d : Direction) : string :=
  match p, d with
  | InitialIV, client_to_server => "A"
  | InitialIV, server_to_client => "B"
  | EncryptionKey, client_to_server => "C"
  | EncryptionKey, server_to_client => "D"
  | IntegrityKey, client_to_server => "E"
  | IntegrityKey, server_to_client => "F"
  end.

Definition inbound_direction (server : bool) : Direction :=
  if server then client_to_server else server_to_client.

Definition outbound_direction (server : bool) : Direction :=
  if server then server_to_client else client_to_server.

Section StandardActivation.

Variable parent_compute_key : SessionSecrets -> string -> Z -> bytes.
Variable parent_get_engine :
  string -> bytes -> option bytes -> Operation -> bool -> result Engine.
Variable need_rekey : Packetizer -> bool.

Let compute_key := _compute_key parent_compute_key.
Let get_engine := _get_engine parent_get_engine.

(** Modelled from the spec: the standard activation path of the parent
    class [paramiko.Transport] (its [_activate_inbound]), which the
    subclass delegates to and which is not part of the repository.  It
    follows sections 4.1, 4.3, 4.4 and 4.5 of the specification: the keys
    of the direction's three slots are always derived; the engines come
    from the registry entries, the null entry giving a null engine (and no
    key); then the packetizer is configured, compression is set up and, in
    strict key-exchange mode, the sequence number is reset. *)
Definition standard_activate_inbound (cls : ClassState) : M unit :=
  server ← attr server_mode;
  let dir := inbound_direction server in
  name ← attr remote_cipher;
  info ← getitem (_cipher_info cls) name;
  let aead := default false (ci_is_aead info) in
  iv_in ← compute_key (slot_letter InitialIV dir)
                      (default (ci_block_size info) (ci_iv_size info));
  key_in ← compute_key (slot_letter EncryptionKey dir) (ci_key_size info);
  engine ← get_engine name key_in (Some iv_in) _DECRYPT aead;
  mac_name ← attr remote_mac;
  mac_info ← getitem (_mac_info cls) mac_name;
  mac_key ← compute_key (slot_letter IntegrityKey dir)
                        (from_option digest_size (mi_size mac_info)
                                     (mi_class mac_info));
  set_inbound_cipher
    {| block_engine := engine; block_size := ci_block_size info;
       mac_engine := if aead then None else mi_class mac_info;
       mac_size := if aead then 16%Z else mi_size mac_info;
       mac_key := if aead then None
                  else (fun _ => mac_key) <$> mi_class mac_info;
       sdctr := false;
       etm := negb aead && str_contains "etm@openssh.com" mac_name;
       aead := aead;
       aead_iv := if aead then Some iv_in else None |};;
  compression ← attr remote_compression;
  entry ← getitem (_compression_info cls) compression;
  is_authenticated ← attr authenticated;
  match snd entry with
  | Some decompressor =>
      if negb (String.eqb compression "zlib@openssh.com") || is_authenticated
      then set_inbound_compressor {| compressor_of := decompressor |}
      else mret tt
  | None => mret tt
  end;;
  strict ← attr agreed_on_strict_kex;
  if strict : bool then reset_seqno_in else mret tt.

(** Modelled from the spec: the standard activation path of the parent
    class [paramiko.Transport] (its [_activate_outbound]), which is not
    part of the repository: NEWKEYS is sent, in strict key-exchange mode
    the sequence number is reset right after it, the direction is set up
    as for the inbound one, the extension-info message follows under the
    condition of section 4.4 (with the server-only restriction of
    section 9), and the peer's NEWKEYS is awaited. *)
Definition standard_activate_outbound (cls : ClassState) : M unit :=
  _send_message (add_byte cMSG_NEWKEYS []);;
  strict ← attr agreed_on_strict_kex;
  (if strict : bool then reset_seqno_out else mret tt);;
  server ← attr server_mode;
  let dir := outbound_direction server in
  name ← attr local_cipher;
  info ← getitem (_cipher_info cls) name;
  let aead := default false (ci_is_aead info) in
  iv_out ← compute_key (slot_letter InitialIV dir)
                       (default (ci_block_size info) (ci_iv_size info));
  key_out ← compute_key (slot_letter EncryptionKey dir) (ci_key_size info);
  engine ← get_engine name key_out (Some iv_out) _ENCRYPT aead;
  mac_name ← attr local_mac;
  mac_info ← getitem (_mac_info cls) mac_name;
  mac_key ← compute_key (slot_letter IntegrityKey dir)
                        (from_option digest_size (mi_size mac_info)
                                     (mi_class mac_info));
  set_outbound_cipher
    {| block_engine := engine; block_size := ci_block_size info;
       mac_engine := if aead then None else mi_class mac_info;
       mac_size := if aead then 16%Z else mi_size mac_info;
       mac_key := if aead then None
                  else (fun _ => mac_key) <$> mi_class mac_info;
       sdctr := endswith name "-ctr";
       etm := negb aead && str_contains "etm@openssh.com" mac_name;
       aead := aead;
       aead_iv := if aead then Some iv_out else None |};;
  compression ← attr local_compression;
  entry ← getitem (_compression_info cls) compression;
  is_authenticated ← attr authenticated;
  match fst entry with
  | Some compressor =>
      if negb (String.eqb compression "zlib@openssh.com") || is_authenticated
      then set_outbound_compressor {| compressor_of := compressor |}
      else mret tt
  | None => mret tt
  end;;
  pk ← attr packetizer;
  (if need_rekey pk then mret tt else update (set_in_kex false));;
  ext_c ← attr (fun t => server_mode t && server_sig_algs t
                         && remote_ext_info_is t "ext-info-c");
  (if ext_c : bool then
     pubkeys ← attr preferred_pubkeys;
     _send_message (ext_info_message pubkeys)
   else mret tt);;
  _expect_packet MSG_NEWKEYS.

End StandardActivation.

(** The negotiated state an observer of the transport sees: everything but
    the debug log lines and the key-derivation calls (a pure function of the
    session secrets). *)
Definition observable_call (c : call) : bool :=
  match c with
  | Log _ | ComputeKey _ _ => false
  | _ => true
  end.

Definition observable (t : Transport) : Transport :=
  set_calls (List.filter observable_call) t.

(** ** The process: the class and its instances *)

Record Process := {
  class_state : ClassState;
  objects : gmap nat Transport
}.

Section Construction.

Variable _filter_algorithm : list string -> list string.

(** [NoneCipherTransport(sock)]: a new object is allocated and initialised;
    [base] is the instance as the parent's constructor leaves it. *)
Definition new_NoneCipherTransport (base : Transport) (p : Process) : nat * Process :=
  let oid := fresh (dom (objects p)) in
  let '(cls, self) := __init__ _filter_algorithm (class_state p) base in
  (oid, {| class_state := cls; objects := <[oid := self]> (objects p) |}).

(** The two assignments both demo programs make after construction
    ([ssh_client.py] lines 34-35, [ssh_server.py] lines 82-83). *)
Definition force_none_first (cls : ClassState) (transport : Transport) : Transport :=
  let transport :=
    set_preferred_ciphers
      ("none" :: filter (fun c => c ≠ "none")
                        (preferred_ciphers _filter_algorithm cls transport))
      transport in
  set_preferred_macs
    ("none" :: filter (fun m => m ≠ "none")
                      (preferred_macs _filter_algorithm cls transport))
    transport.

Definition demo_transport (base : Transport) (p : Process) : nat * Process :=
  let '(oid, p) := new_NoneCipherTransport base p in
  (oid, {| class_state := class_state p;
           objects := alter (force_none_first (class_state p)) oid (objects p) |}).

End Construction.

(** ** The server interface of the demo server *)

Inductive AuthResult :=
| AUTH_SUCCESSFUL
| AUTH_PARTIALLY_SUCCESSFUL
| AUTH_FAILED.

Inductive OpenResult :=
| OPEN_SUCCEEDED
| OPEN_FAILED_ADMINISTRATIVELY_PROHIBITED
| OPEN_FAILED_CONNECT_FAILED
| OPEN_FAILED_UNKNOWN_CHANNEL_TYPE
| OPEN_FAILED_RESOURCE_SHORTAGE.

(** [s.split(sep)] for a one-character separator. *)
Fixpoint split_on (sep : ascii) (s : string) : list string :=
  match s with
  | EmptyString => [""]
  | String c s' =>
      if Ascii.eqb c sep then "" :: split_on sep s'
      else
        match split_on sep s' with
        | w :: ws => String c w :: ws
        | [] => [String c ""]
        end
  end.

Module AllowAllServer.

(** The handler object: its [event], and the lines it has logged. *)
Record t := {
  event : bool;
  logged : list string
}.

Definition __init__ : t := {| event := false; logged := [] |}.

Definition logging_info (msg : string) (self : t) : t :=
  {| event := event self; logged := logged self ++ [msg] |}.

Definition event_set (self : t) : t :=
  {| event := true; logged := logged self |}.

Definition check_channel_request (kind : string) (chanid : Z) (self : t)
  : OpenResult * t :=
  let self :=
    logging_info ("Client requested channel kind='" +:+ kind
                  +:+ "', chanid=" +:+ pretty chanid) self in
  if String.eqb kind "session" then (OPEN_SUCCEEDED, self)
  else (OPEN_FAILED_ADMINISTRATIVELY_PROHIBITED, self).

Definition check_auth_none (username : string) (self : t) : AuthResult * t :=
  let self :=
    logging_info ("Auth attempt: username='" +:+ username
                  +:+ "', method='none'") self in
  let self := event_set self in
  (AUTH_SUCCESSFUL, self).

Definition check_auth_password (username password : string) (self : t)
  : AuthResult * t :=
  let self :=
    logging_info ("Auth attempt: username='" +:+ username
                  +:+ "', method='password' (REJECTED)") self in
  (AUTH_FAILED, self).

Definition check_auth_publickey (username : string) (key : bytes) (self : t)
  : AuthResult * t :=
  let self :=
    logging_info ("Auth attempt: username='" +:+ username
                  +:+ "', method='publickey' (REJECTED)") self in
  (AUTH_FAILED, self).

Definition get_allowed_auths (username : string) (self : t) : string * t :=
  let self :=
    logging_info ("Client asking for allowed auth methods for user '"
                  +:+ username +:+ "'") self in
  ("none", self).

Definition check_channel_shell_request (channel : nat) (self : t) : bool * t :=
  let self := logging_info "Client requested a shell" self in
  let self := event_set self in
  (true, self).

Definition check_channel_pty_request (channel : nat) (term : string)
    (width height pixelwidth pixelheight : Z) (modes : bytes) (self : t)
  : bool * t :=
  let self := logging_info "Client requested PTY" self in
  (true, self).

(** A call the transport makes on the handler, and its effect on the
    handler object. *)
Inductive request :=
| ChannelRequest (kind : string) (chanid : Z)
| AuthNone (username : string)
| AuthPassword (username password : string)
| AuthPublickey (username : string) (key : bytes)
| AllowedAuths (username : string)
| ShellRequest (channel : nat)
| PtyRequest (channel : nat) (term : string)
             (width height pixelwidth pixelheight : Z) (modes : bytes).

Definition serve (self : t) (r : request) : t :=
  match r with
  | ChannelRequest kind chanid => snd (check_channel_request kind chanid self)
  | AuthNone username => snd (check_auth_none username self)
  | AuthPassword username password =>
      snd (check_auth_password username password self)
  | AuthPublickey username key => snd (check_auth_publickey username key self)
  | AllowedAuths username => snd (get_allowed_auths username self)
  | ShellRequest channel => snd (check_channel_shell_request channel self)
  | PtyRequest channel term w h pw ph modes =>
      snd (check_channel_pty_request channel term w h pw ph modes self)
  end.

Definition sets_event (r : request) : bool :=
  match r with
  | AuthNone _ | ShellRequest _ => true
  | _ => false
  end.

End AllowAllServer.

(** ** Sample data *)

(** A class state with a few of the library's stock entries. *)
Definition sha256 : HashClass := {| hash_name := "sha256"; digest_size := 32 |}.

Definition stock_class : ClassState :=
  {| _cipher_info :=
       {[ "aes128-ctr" :=
            {| ci_class := Some "AES"; ci_mode := Some "CTR"; ci_block_size := 16;
               ci_key_size := 16; ci_iv_size := None; ci_is_aead := None |};
          "aes128-gcm@openssh.com" :=
            {| ci_class := Some "AESGCM"; ci_mode := None; ci_block_size := 16;
               ci_key_size := 16; ci_iv_size := Some 12%Z; ci_is_aead := Some true |} ]};
     _mac_info :=
       {[ "hmac-sha2-256" := {| mi_class := Some sha256; mi_size := 32 |};
          "hmac-sha2-256-etm@openssh.com" :=
            {| mi_class := Some sha256; mi_size := 32 |} ]};
     _compression_info :=
       {[ "zlib@openssh.com" :=
            (Some {| compressor_class_name := "ZlibCompressor" |},
             Some {| compressor_class_name := "ZlibDecompressor" |});
          "zlib" :=
            (Some {| compressor_class_name := "ZlibCompressor" |},
             Some {| compressor_class_name := "ZlibDecompressor" |});
          "none" := (None, None) ]};
     class_preferred_ciphers := ["aes128-ctr"; "aes128-gcm@openssh.com"];
     class_preferred_macs := ["hmac-sha2-256"; "hmac-sha2-256-etm@openssh.com"] |}.

Definition empty_packetizer : Packetizer :=
  {| cipher_in := None; cipher_out := None;
     compressor_in := None; compressor_out := None;
     seqno_in := 3; seqno_out := 3 |}.

(** A transport right after key exchange, with the negotiated names given. *)
Definition negotiated (server strict auth : bool) (cipher mac compression : string)
  : Transport :=
  {| server_mode := server; authenticated := auth;
     agreed_on_strict_kex := strict; server_sig_algs := true;
     _remote_ext_info := if server then Some "ext-info-c" else None;
     local_cipher := cipher; remote_cipher := cipher;
     local_mac := mac; remote_mac := mac;
     local_compression := compression; remote_compression := compression;
     preferred_pubkeys := ["ssh-ed25519"; "rsa-sha2-512"];
     _preferred_ciphers := None; _preferred_macs := None;
     secrets := {| secret_K := 42; secret_H := []; session_id := [] |};
     in_kex := true; _expected_packet := [];
     packetizer := empty_packetizer;
     _channels := ∅; calls := [] |}.

(** Stand-ins for the library's functions. *)
Definition sample_compute_key (s : SessionSecrets) (id : string) (nbytes : Z) : bytes :=
  repeat (match id with String c _ => byte_of_ascii c | EmptyString => Byte.x00 end)
        (Z.to_nat nbytes).

Definition sample_get_engine (name : string) (key : bytes) (iv : option bytes)
    (operation : Operation) (aead : bool) : result Engine :=
  Ok {| eng_name := name; eng_key := key; eng_iv := iv;
        eng_operation := operation; eng_aead := aead |}.

Definition sample_need_rekey (p : Packetizer) : bool := false.

Definition sample_parent (cls : ClassState) : M unit :=
  raise (SSHException "parent activation").

Definition null_class : ClassState :=
  fst (__init__ id stock_class (negotiated true false false "none" "none" "none")).

(** ** Vocabulary for the properties *)

(** The two streams of a transport, and the negotiated names of each. *)
Inductive Stream := Inbound | Outbound.

Definition cipher_of (d : Stream) (t : Transport) : string :=
  match d with Inbound => remote_cipher t | Outbound => local_cipher t end.

Definition mac_of (d : Stream) (t : Transport) : string :=
  match d with Inbound => remote_mac t | Outbound => local_mac t end.

Definition compression_of (d : Stream) (t : Transport) : string :=
  match d with Inbound => remote_compression t | Outbound => local_compression t end.

Definition none_negotiated (d : Stream) (t : Transport) : Prop :=
  cipher_of d t = "none" ∨ mac_of d t = "none".

Definition wire_direction (d : Stream) (server : bool) : Direction :=
  match d with
  | Inbound => inbound_direction server
  | Outbound => outbound_direction server
  end.

Definition negotiated_names (t : Transport) : list string :=
  [local_cipher t; remote_cipher t; local_mac t; remote_mac t;
   local_compression t; remote_compression t].

(** The packetizer state of one stream. *)
Definition cipher_state (d : Stream) (p : Packetizer) : option CipherState :=
  match d with Inbound => cipher_in p | Outbound => cipher_out p end.

Definition compressor (d : Stream) (p : Packetizer) : option Compressor :=
  match d with Inbound => compressor_in p | Outbound => compressor_out p end.

Definition seqno (d : Stream) (p : Packetizer) : Z :=
  match d with Inbound => seqno_in p | Outbound => seqno_out p end.

Definition opposite (d : Stream) : Stream :=
  match d with Inbound => Outbound | Outbound => Inbound end.

(** The compressor class a stream takes from an entry of
    [_compression_info]: index 1 inbound, index 0 outbound. *)
Definition compressor_class (d : Stream) (entry : option CompressorClass * option CompressorClass)
  : option CompressorClass :=
  match d with Inbound => snd entry | Outbound => fst entry end.

(** The calls a method has added. *)
Definition new_calls (before after : Transport) : list call :=
  drop (length (calls before)) (calls after).

Definition is_log (c : call) : bool :=
  match c with Log _ => true | _ => false end.

Definition without_logs (l : list call) : list call :=
  List.filter (fun c => negb (is_log c)) l.

Definition is_reset (c : call) : bool :=
  match c with ResetSeqnoIn | ResetSeqnoOut => true | _ => false end.

Definition reset_of (d : Stream) : call :=
  match d with Inbound => ResetSeqnoIn | Outbound => ResetSeqnoOut end.

Definition is_set_compressor (c : call) : bool :=
  match c with
  | SetInboundCompressor _ | SetOutboundCompressor _ => true
  | _ => false
  end.

Definition set_compressor_call (d : Stream) (c : Compressor) : call :=
  match d with
  | Inbound => SetInboundCompressor c
  | Outbound => SetOutboundCompressor c
  end.

Fixpoint key_derivations (l : list call) : list (string * Z) :=
  match l with
  | [] => []
  | ComputeKey id n :: l' => (id, n) :: key_derivations l'
  | _ :: l' => key_derivations l'
  end.

Fixpoint sent_messages (l : list call) : list Message :=
  match l with
  | [] => []
  | SendMessage m :: l' => m :: sent_messages l'
  | _ :: l' => sent_messages l'
  end.

(** The condition under which [_activate_outbound] emits EXT_INFO. *)
Definition ext_info_due (t : Transport) : bool :=
  server_mode t && server_sig_algs t && remote_ext_info_is t "ext-info-c".

(** The compressor a stream's activation switches on, if any: the entry's
    class must not be [None], and delayed compression waits for
    authentication. *)
Definition compression_due (d : Stream) (t : Transport)
    (entry : option CompressorClass * option CompressorClass) : option Compressor :=
  match compressor_class d entry with
  | Some c =>
      if negb (String.eqb (compression_of d t) "zlib@openssh.com")
         || authenticated t
      then Some {| compressor_of := c |}
      else None
  | None => None
  end.

(** The key derivations of a null-path activation: the cipher's two slots
    unless the cipher is ["none"], the MAC's slot unless the MAC is ["none"]
    or the cipher is AEAD. *)
Definition null_path_key_derivations (cls : ClassState) (d : Stream) (t : Transport)
  : list (string * Z) :=
  match _cipher_info cls !! cipher_of d t with
  | None => []
  | Some info =>
      let dir := wire_direction d (server_mode t) in
      (if String.eqb (cipher_of d t) "none" then []
       else [(slot_letter InitialIV dir,
              default (ci_block_size info) (ci_iv_size info));
             (slot_letter EncryptionKey dir, ci_key_size info)])
      ++
      (if String.eqb (mac_of d t) "none" || default false (ci_is_aead info) then []
       else
         match _mac_info cls !! mac_of d t ≫= mi_class with
         | Some h => [(slot_letter IntegrityKey dir, digest_size h)]
         | None => []
         end)
  end.

Definition set_authenticated (b : bool) (t : Transport) : Transport :=
  {| server_mode := server_mode t; authenticated := b;
     agreed_on_strict_kex := agreed_on_strict_kex t;
     server_sig_algs := server_sig_algs t;
     _remote_ext_info := _remote_ext_info t;
     local_cipher := local_cipher t; remote_cipher := remote_cipher t;
     local_mac := local_mac t; remote_mac := remote_mac t;
     local_compression := local_compression t;
     remote_compression := remote_compression t;
     preferred_pubkeys := preferred_pubkeys t;
     _preferred_ciphers := _preferred_ciphers t;
     _preferred_macs := _preferred_macs t;
     secrets := secrets t; in_kex := in_kex t;
     _expected_packet := _expected_packet t;
     packetizer := packetizer t; _channels := _channels t;
     calls := calls t |}.

Section Activation.

Variable parent_compute_key : SessionSecrets -> string -> Z -> bytes.
Variable parent_get_engine :
  string -> bytes -> option bytes -> Operation -> bool -> result Engine.
Variable parent_activate_inbound : ClassState -> M unit.
Variable parent_activate_outbound : ClassState -> M unit.
Variable need_rekey : Packetizer -> bool.

(** The activation method of a stream, and the standard sequence for it. *)
Definition activate (d : Stream) (cls : ClassState) : M unit :=
  match d with
  | Inbound =>
      _activate_inbound parent_compute_key parent_get_engine
                        parent_activate_inbound cls
  | Outbound =>
      _activate_outbound parent_compute_key parent_get_engine
                         parent_activate_outbound need_rekey cls
  end.

Definition standard_activate (d : Stream) (cls : ClassState) : M unit :=
  match d with
  | Inbound =>
      standard_activate_inbound parent_compute_key parent_get_engine cls
  | Outbound =>
      standard_activate_outbound parent_compute_key parent_get_engine
                                 need_rekey cls
  end.

End Activation.

(** ** Sample runs *)

Definition sample_activate (d : Stream) : ClassState -> M unit :=
  activate sample_compute_key sample_get_engine sample_parent sample_parent
           sample_need_rekey d.

Definition sample_run (d : Stream) (t : Transport) : Transport :=
  match exec (sample_activate d null_class) t with
  | Ok t' => t'
  | Raise _ => t
  end.

(** A server whose peer negotiated the null cipher and MAC, in its first
    handshake, and the same server at a later rekey: authenticated, the
    peer's new KEXINIT again carrying [ext-info-c]. *)
Definition first_handshake : Transport :=
  negotiated true true false "none" "none" "none".

Definition at_rekey : Transport :=
  set_in_kex true (set_authenticated true (sample_run Outbound first_handshake)).

Definition is_ext_info (m : Message) : bool :=
  match m with
  | MByte b :: _ => (b =? MSG_EXT_INFO)%Z
  | _ => false
  end.

(** A process with one transport already constructed. *)
Definition sample_process : Process :=
  {| class_state := stock_class;
     objects := {[ 0%nat := negotiated false false false "aes128-ctr" "hmac-sha2-256" "none" ]} |}.

(** ** Judgements on runs *)

(** [wp m Q t]: if [m] returns from the state [t], its result and final
    state satisfy [Q]. *)
Definition wp {A} (m : M A) (Q : A -> Transport -> Prop) (t : Transport) : Prop :=
  forall a t', m t = Ok (a, t') -> Q a t'.

(** [outcome m R t]: the result of running [m] from the state [t], returned
    or raised, satisfies [R]. *)
Definition outcome {A} (m : M A) (R : result (A * Transport) -> Prop)
    (t : Transport) : Prop :=
  R (m t).

(** ** What a null-path activation depends on *)

(** The attributes of a transport that activation only reads. *)
Definition attributes (t : Transport) :=
  (server_mode t, authenticated t, agreed_on_strict_kex t, server_sig_algs t,
   _remote_ext_info t, negotiated_names t, preferred_pubkeys t,
   _preferred_ciphers t, _preferred_macs t, secrets t, _channels t).

Definition stream_operation (d : Stream) : Operation :=
  match d with Inbound => _DECRYPT | Outbound => _ENCRYPT end.

Section Readiness.

Variable parent_compute_key : SessionSecrets -> string -> Z -> bytes.
Variable parent_get_engine :
  string -> bytes -> option bytes -> Operation -> bool -> result Engine.

(** The initial IV a stream derives, and the parent's engine for a cipher
    other than ["none"], from the cipher's table entry. *)
Definition stream_iv (d : Stream) (t : Transport) (info : CipherInfo) : bytes :=
  parent_compute_key (secrets t)
    (slot_letter InitialIV (wire_direction d (server_mode t)))
    (default (ci_block_size info) (ci_iv_size info)).

Definition stream_engine (d : Stream) (t : Transport) (info : CipherInfo)
  : result Engine :=
  parent_get_engine (cipher_of d t)
    (parent_compute_key (secrets t)
       (slot_letter EncryptionKey (wire_direction d (server_mode t)))
       (ci_key_size info))
    (Some (stream_iv d t info))
    (stream_operation d)
    (default false (ci_is_aead info)).

(** The first step of a null-path activation that raises, if any, in the
    order of the code: the cipher's table entry, the parent's engine, the
    MAC's table entry and its class, the compression entry. *)
Definition engine_error (d : Stream) (t : Transport) (info : CipherInfo)
  : option exn :=
  if String.eqb (cipher_of d t) "none" then None
  else match stream_engine d t info with
       | Ok _ => None
       | Raise e => Some e
       end.

Definition mac_error (cls : ClassState) (d : Stream) (t : Transport)
    (info : CipherInfo) : option exn :=
  if String.eqb (mac_of d t) "none" || default false (ci_is_aead info) then None
  else match _mac_info cls !! mac_of d t with
       | None => Some (KeyError (mac_of d t))
       | Some mac_info =>
           match mi_class mac_info with
           | None => Some (TypeError "'NoneType' object is not callable")
           | Some _ => None
           end
       end.

Definition compression_error (cls : ClassState) (d : Stream) (t : Transport)
  : option exn :=
  match _compression_info cls !! compression_of d t with
  | None => Some (KeyError (compression_of d t))
  | Some _ => None
  end.

Definition null_path_error (cls : ClassState) (d : Stream) (t : Transport)
  : option exn :=
  match _cipher_info cls !! cipher_of d t with
  | None => Some (KeyError (cipher_of d t))
  | Some info =>
      match engine_error d t info with
      | Some e => Some e
      | None =>
          match mac_error cls d t info with
          | Some e => Some e
          | None => compression_error cls d t
          end
      end
  end.

(** The packetizer state a null-path activation hands over for its stream,
    from the cipher's table entry. *)
Definition stream_state (cls : ClassState) (d : Stream) (t : Transport)
    (info : CipherInfo) : CipherState :=
  let is_aead := default false (ci_is_aead info) in
  let cipher_on := negb (String.eqb (cipher_of d t) "none") in
  let mac_on := negb (String.eqb (mac_of d t) "none") && negb is_aead in
  let mac_info := _mac_info cls !! mac_of d t in
  {| block_engine :=
       if cipher_on
       then match stream_engine d t info with
            | Ok e => Some e
            | Raise _ => None
            end
       else None;
     block_size := ci_block_size info;
     mac_engine := if mac_on then mac_info ≫= mi_class else None;
     mac_size :=
       if mac_on then from_option mi_size 0%Z mac_info
       else if is_aead then 16%Z else 0%Z;
     mac_key :=
       if mac_on
       then h ← mac_info ≫= mi_class;
            Some (parent_compute_key (secrets t)
                    (slot_letter IntegrityKey (wire_direction d (server_mode t)))
                    (digest_size h))
       else None;
     sdctr :=
       match d with
       | Inbound => false
       | Outbound => cipher_on && endswith (cipher_of d t) "-ctr"
       end;
     etm := mac_on && str_contains "etm@openssh.com" (mac_of d t);
     aead := is_aead;
     aead_iv :=
       if is_aead
       then if cipher_on
            then Some (stream_iv d t info)
            else None
       else None |}.

End Readiness.


(** A transport whose peer negotiated a real cipher with the null MAC. *)
Definition mixed_handshake : Transport :=
  negotiated true true false "aes128-ctr" "none" "none".

Definition is_expect_packet (c : call) : bool :=
  match c with ExpectPacket _ => true | _ => false end.

(** A transport whose peer negotiated the null cipher with a real MAC. *)
Definition mac_handshake : Transport :=
  negotiated true true false "none" "hmac-sha2-256" "none".

(** The library's [_filter_algorithm] with no algorithm disabled. *)
Definition keep_every (name : string) : bool := true.


(** * Properties *)

(** ** A weakest-precondition calculus for the method monad

    [wp m Q t]: if [m] returns from state [t], the result and the final state
    satisfy [Q].  The rules follow the structure of the code, so that a run
    is analysed statement by statement. *)

Lemma wp_bind {A B} (m : M A) (k : A -> M B) Q t :
  wp m (fun a t1 => wp (k a) Q t1) t -> wp (mbind k m) Q t.
Proof.
  unfold wp, mbind, M_mbind, M_bind. intros H b t' E.
  destruct (m t) as [[a t1]|e] eqn:Em; [|discriminate].
  exact (H a t1 eq_refl b t' E).
Qed.

Lemma wp_ret {A} (a : A) (Q : A -> Transport -> Prop) t : Q a t -> wp (mret a) Q t.
Proof. intros H b t' [= <- <-]. exact H. Qed.

Lemma wp_attr {A} (f : Transport -> A) (Q : A -> Transport -> Prop) t :
  (forall a, a = f t -> Q a t) -> wp (attr f) Q t.
Proof. intros H b t' [= <- <-]. apply H. reflexivity. Qed.

Lemma wp_update (g : Transport -> Transport) (Q : unit -> Transport -> Prop) t :
  Q tt (g t) -> wp (update g) Q t.
Proof. intros H b t' [= <- <-]. exact H. Qed.

Lemma wp_getitem {V} (d : gmap string V) key (Q : V -> Transport -> Prop) t :
  (forall v, d !! key = Some v -> Q v t) -> wp (getitem d key) Q t.
Proof.
  intros H b t'. unfold getitem. destruct (d !! key) as [v|] eqn:E.
  - intros [= <- <-]. apply H. reflexivity.
  - discriminate.
Qed.

Lemma wp_raise {A} e (Q : A -> Transport -> Prop) t : wp (raise e) Q t.
Proof. intros b t'. discriminate. Qed.

Lemma wp_if {A} (c : bool) (m1 m2 : M A) Q t :
  (c = true -> wp m1 Q t) -> (c = false -> wp m2 Q t) ->
  wp (if c then m1 else m2) Q t.
Proof. destruct c; auto. Qed.

Lemma wp_if_true {A} (c : bool) (m1 m2 : M A) Q t :
  c = true -> wp m1 Q t -> wp (if c then m1 else m2) Q t.
Proof. intros ->. auto. Qed.

Lemma wp_if_false {A} (c : bool) (m1 m2 : M A) Q t :
  c = false -> wp m2 Q t -> wp (if c then m1 else m2) Q t.
Proof. intros ->. auto. Qed.

Lemma wp_exec {A} (m : M A) (P : Transport -> Prop) t :
  wp m (fun _ t' => P t') t -> forall t', exec m t = Ok t' -> P t'.
Proof.
  unfold wp, exec. intros H t'. destruct (m t) as [[a t1]|e] eqn:E; [|discriminate].
  intros [= <-]. exact (H a t1 eq_refl).
Qed.


Lemma wp_match_result {A B} (r : result A) (f : A -> M B) (g : exn -> M B) Q t :
  (forall a, r = Ok a -> wp (f a) Q t) ->
  (forall e, r = Raise e -> wp (g e) Q t) ->
  wp (match r with Ok a => f a | Raise e => g e end) Q t.
Proof. destruct r; auto. Qed.

(** Unfolding of the methods down to the primitives of the monad. *)
Ltac wp_unfold :=
  unfold _activate_inbound_none, _activate_outbound_none,
    standard_activate_inbound, standard_activate_outbound,
    _compute_key, _get_engine, call_digest_size,
    set_inbound_cipher, set_outbound_cipher, set_inbound_compressor,
    set_outbound_compressor, reset_seqno_in, reset_seqno_out, _expect_packet,
    _send_message, _log, record.

Ltac beta := cbv beta iota zeta.

(** Evaluation of the boolean tests and table fields that have become
    closed. *)
Lemma etm_none : str_contains "etm@openssh.com" "none" = false.
Proof. reflexivity. Qed.

Lemma ctr_none : endswith "none" "-ctr" = false.
Proof. reflexivity. Qed.

Ltac tests :=
  rewrite ?String.eqb_refl, ?etm_none, ?ctr_none;
  cbn [negb andb orb default from_option id fst snd fmap option_fmap option_map
       ci_is_aead ci_block_size ci_key_size ci_iv_size ci_class ci_mode
       mi_class mi_size none_cipher_info none_mac_info
       slot_letter inbound_direction outbound_direction].

(** Normal form of a fact about a test. *)
Ltac fact H :=
  repeat match type of H with
         | negb _ = true => apply (proj1 (negb_true_iff _)) in H
         | negb _ = false => apply (proj1 (negb_false_iff _)) in H
         end.

(** A table entry read under a key whose entry is known. *)
Ltac known Hc :=
  try match goal with
      | Hget : ?x = Some ?v |- _ =>
          is_var v;
          match type of Hc with x = Some _ => idtac end;
          rewrite Hc in Hget; injection Hget as <-
      end.

(** One statement of the run; [tac] brings the known facts into the goal
    before a test is decided. *)
Ltac wp_step tac :=
  lazymatch goal with
  | |- wp (mbind _ _) _ _ => apply wp_bind
  | |- wp (mret _) _ _ => apply wp_ret; beta
  | |- wp (attr _) _ _ =>
      apply wp_attr;
      let a := fresh "a" in
      let H := fresh "H" in
      intros a H; unfold remote_ext_info_is in H; simpl in H; subst a; beta
  | |- wp (update _) _ _ => apply wp_update; beta
  | |- wp (getitem _ _) _ _ =>
      tac; apply wp_getitem;
      let v := fresh "v" in
      let H := fresh "Hget" in
      intros v H; beta
  | |- wp (raise _) _ _ => apply wp_raise
  | |- wp (if _ then _ else _) _ _ =>
      tac; tests;
      lazymatch goal with
      | |- wp (if true then _ else _) _ _ => beta
      | |- wp (if false then _ else _) _ _ => beta
      | |- wp (if _ then _ else _) _ _ =>
          let H := fresh "Htest" in
          apply wp_if; intros H; fact H
      | |- _ => idtac
      end
  | |- wp (match ?x with _ => _ end) _ _ =>
      tac; tests;
      lazymatch goal with
      | |- wp (match ?x with _ => _ end) _ _ => destruct x eqn:?
      | |- _ => idtac
      end
  end.

Ltac wp_run tac := wp_unfold; repeat (wp_step tac).

(** Bringing the facts of the run into the goal. *)
Ltac facts :=
  repeat match goal with
         | H : ?x = _ |- context [?x] => progress rewrite H
         end.

(** ** Forward runs

    The same rules read forwards: from the facts at hand, the run returns,
    and its result is computed statement by statement. *)

Lemma run_bind {A B} (m : M A) (k : A -> M B) t a t1 r :
  m t = Ok (a, t1) -> k a t1 = r -> mbind k m t = r.
Proof. unfold mbind, M_mbind, M_bind. intros -> ->. reflexivity. Qed.

Lemma run_attr {A} (f : Transport -> A) t a : a = f t -> attr f t = Ok (a, t).
Proof. intros ->. reflexivity. Qed.

Lemma run_getitem {V} (d : gmap string V) key v t :
  d !! key = Some v -> getitem d key t = Ok (v, t).
Proof. unfold getitem. intros ->. reflexivity. Qed.

Lemma run_exec {A} (m : M A) t a t' : m t = Ok (a, t') -> exec m t = Ok t'.
Proof. unfold exec. intros ->. reflexivity. Qed.

Ltac run_all tac :=
  lazymatch goal with
  | |- mbind _ _ _ = _ =>
      eapply run_bind; [ run_all tac | beta; tests; run_all tac ]
  | |- attr _ _ = _ =>
      apply run_attr; unfold remote_ext_info_is; simpl; tac; reflexivity
  | |- update _ _ = _ => reflexivity
  | |- mret _ _ = _ => reflexivity
  | |- getitem _ _ _ = _ => tac; apply run_getitem; eassumption
  | |- (if _ then _ else _) _ = _ => progress (tac; tests); run_all tac
  | |- (match _ with _ => _ end) _ = _ => progress (tac; tests); run_all tac
  end.

(** The calls added to an abstract earlier list. *)
Ltac added :=
  unfold new_calls; simpl;
  rewrite <- ?app_assoc; simpl;
  rewrite ?drop_app_length; simpl.

(** Two transports are equal when their attributes are. *)
Lemma Transport_ext (t1 t2 : Transport) :
  attributes t1 = attributes t2 ->
  in_kex t1 = in_kex t2 ->
  _expected_packet t1 = _expected_packet t2 ->
  packetizer t1 = packetizer t2 ->
  calls t1 = calls t2 ->
  t1 = t2.
Proof.
  destruct t1, t2; unfold attributes, negotiated_names; simpl.
  intros [= -> -> -> -> -> -> -> -> -> -> -> -> -> -> -> ->] -> -> -> ->.
  reflexivity.
Qed.

(** Equality of observable states whose calls extend the same list. *)
Ltac same_observable :=
  apply Transport_ext; unfold attributes; simpl; try reflexivity;
  rewrite ?List.filter_app; simpl; rewrite ?app_nil_r, <- ?app_assoc;
  reflexivity.

Lemma none_cases d t :
  none_negotiated d t ->
  (cipher_of d t = "none" /\ mac_of d t = "none") \/
  (cipher_of d t = "none" /\ String.eqb (mac_of d t) "none" = false) \/
  (String.eqb (cipher_of d t) "none" = false /\ mac_of d t = "none").
Proof.
  unfold none_negotiated.
  destruct (String.eqb_spec (cipher_of d t) "none"),
           (String.eqb_spec (mac_of d t) "none"); tauto.
Qed.

Lemma eqb_none_true s : String.eqb s "none" = true -> s = "none".
Proof. apply String.eqb_eq. Qed.

Lemma eqb_none_false s : String.eqb s "none" = false -> s ≠ "none".
Proof. apply String.eqb_neq. Qed.

Lemma none_negotiated_test d t :
  none_negotiated d t <->
  String.eqb (cipher_of d t) "none" || String.eqb (mac_of d t) "none" = true.
Proof.
  unfold none_negotiated. rewrite orb_true_iff, !String.eqb_eq. tauto.
Qed.

Lemma filter_snoc (P : call -> bool) l c :
  List.filter P (l ++ [c]) = List.filter P l ++ (if P c then [c] else []).
Proof. rewrite List.filter_app. simpl. destruct (P c); reflexivity. Qed.

Lemma key_derivations_app l1 l2 :
  key_derivations (l1 ++ l2) = key_derivations l1 ++ key_derivations l2.
Proof.
  induction l1 as [|c l1 IH]; simpl; [reflexivity|].
  destruct c; simpl; rewrite ?IH; reflexivity.
Qed.

Lemma sent_messages_app l1 l2 :
  sent_messages (l1 ++ l2) = sent_messages l1 ++ sent_messages l2.
Proof.
  induction l1 as [|c l1 IH]; simpl; [reflexivity|].
  destruct c; simpl; rewrite ?IH; reflexivity.
Qed.

Section Properties.

Variable parent_compute_key : SessionSecrets -> string -> Z -> bytes.
Variable parent_get_engine :
  string -> bytes -> option bytes -> Operation -> bool -> result Engine.
Variable parent_activate_inbound : ClassState -> M unit.
Variable parent_activate_outbound : ClassState -> M unit.
Variable need_rekey : Packetizer -> bool.
Variable _filter_algorithm : list string -> list string.

Local Notation "'activate_stream'" :=
  (activate parent_compute_key parent_get_engine parent_activate_inbound
            parent_activate_outbound need_rekey) (only parsing).
Local Notation "'standard_stream'" :=
  (standard_activate parent_compute_key parent_get_engine need_rekey)
  (only parsing).
Local Notation "'initialised' cls0 base" :=
  (fst (__init__ _filter_algorithm cls0 base))
  (at level 10, cls0 at level 9, base at level 9, only parsing).

(** The null-handling branch of either method. *)
Lemma activate_on_none d cls t :
  none_negotiated d t ->
  activate_stream d cls t =
  match d with
  | Inbound => _activate_inbound_none parent_compute_key parent_get_engine cls t
  | Outbound =>
      _activate_outbound_none parent_compute_key parent_get_engine
                              need_rekey cls t
  end.
Proof.
  intros H. apply none_negotiated_test in H.
  destruct d; simpl in H;
    unfold activate, _activate_inbound, _activate_outbound,
      mbind, M_mbind, M_bind, attr;
    beta; rewrite H; reflexivity.
Qed.

Lemma activate_on_other d cls t :
  ~ none_negotiated d t ->
  activate_stream d cls t =
  match d with
  | Inbound =>
      parent_activate_inbound cls
        (set_calls
           (fun l => l ++ [Log "Activating inbound stream using superclass method."])
           t)
  | Outbound =>
      parent_activate_outbound cls
        (set_calls
           (fun l => l ++ [Log "Activating outbound stream using superclass method."])
           t)
  end.
Proof.
  intros H. rewrite none_negotiated_test in H. apply not_true_is_false in H.
  destruct d; simpl in H;
    unfold activate, _activate_inbound, _activate_outbound,
      mbind, M_mbind, M_bind, attr, _log, record, update;
    beta; rewrite H; reflexivity.
Qed.

Lemma initialised_cipher_none cls0 base :
  _cipher_info (initialised cls0 base) !! "none" = Some none_cipher_info.
Proof. apply lookup_insert_eq. Qed.

Lemma initialised_mac_none cls0 base :
  _mac_info (initialised cls0 base) !! "none" = Some none_mac_info.
Proof. apply lookup_insert_eq. Qed.

(** C1.  Each activation method takes its null-handling branch exactly when
    the cipher or the MAC negotiated for its stream is ["none"] (the remote
    pair inbound, the local pair outbound): its result is then that of the
    branch, whatever the parent's activation method is; in every other case
    one debug line is logged and the result is the parent's activation
    method's, called on the same class and instance. *)
Theorem activation_dispatch (cls : ClassState) (t : Transport) :
  (none_negotiated Inbound t ->
     activate_stream Inbound cls t
     = _activate_inbound_none parent_compute_key parent_get_engine cls t) /\
  (~ none_negotiated Inbound t ->
     activate_stream Inbound cls t
     = parent_activate_inbound cls
         (set_calls
            (fun l => l ++ [Log "Activating inbound stream using superclass method."])
            t)) /\
  (none_negotiated Outbound t ->
     activate_stream Outbound cls t
     = _activate_outbound_none parent_compute_key parent_get_engine
                               need_rekey cls t) /\
  (~ none_negotiated Outbound t ->
     activate_stream Outbound cls t
     = parent_activate_outbound cls
         (set_calls
            (fun l => l ++ [Log "Activating outbound stream using superclass method."])
            t)).
Proof.
  split; [|split; [|split]]; intros H.
  - apply (activate_on_none Inbound cls t H).
  - apply (activate_on_other Inbound cls t H).
  - apply (activate_on_none Outbound cls t H).
  - apply (activate_on_other Outbound cls t H).
Qed.




(** C3, as amended.  In the null-handling branch, [_compute_key] is called
    for a stream's IV and encryption-key slots exactly when the stream's
    cipher is not ["none"] (slots A and C client to server, B and D server to
    client), and for its integrity-key slot (E or F) exactly when its MAC is
    not ["none"] and the cipher is not AEAD, in that order and with the
    table's sizes.  For the cipher ["none"] the two derivations are skipped,
    and the packetizer gets no engine and no IV. *)
Theorem null_path_key_derivation (d : Stream) (cls : ClassState)
    (t t' : Transport) :
  none_negotiated d t ->
  exec (activate_stream d cls) t = Ok t' ->
  key_derivations (new_calls t t') = null_path_key_derivations cls d t /\
  (if String.eqb (cipher_of d t) "none"
   then exists st, cipher_state d (packetizer t') = Some st /\
                   block_engine st = None /\ aead_iv st = None
   else True).
Proof.
  intros Hnone. revert t'.
  unfold exec at 1. rewrite (activate_on_none _ _ _ Hnone).
  destruct (none_cases d t Hnone) as [[Hn1 Hn2] | [[Hn1 Hn2] | [Hn1 Hn2]]];
    destruct d; simpl in Hn1, Hn2; apply wp_exec.
  all: wp_run ltac:(rewrite ?Hn1, ?Hn2).
  all: unfold null_path_key_derivations; added; rewrite ?Hn1, ?Hn2;
    facts; tests; simpl; facts; simpl.
  all: (split; [reflexivity | ]); try exact I.
  all: eexists; split; [reflexivity | ]; simpl; split; [reflexivity | ].
  all: try reflexivity.
  all: match goal with
       | |- (if ?b then _ else _) = _ => destruct b; reflexivity
       end.
Qed.



(** C6, as amended.  In the null-handling branch of [_activate_outbound],
    NEWKEYS is the first message sent, and the extension-info message
    (message number 7, one extension, [server-sig-algs], with the preferred
    public-key algorithms joined by commas) is the only other one: it is
    sent exactly when the transport is in server mode, [server_sig_algs] is
    set and [_remote_ext_info] is [ext-info-c], after the stream has been
    set up and right before NEWKEYS is awaited.  The condition reads neither
    [authenticated] nor whether this is the first key exchange: every
    activation under it sends the message. *)
Theorem ext_info_emission (cls : ClassState) (t t' : Transport) :
  none_negotiated Outbound t ->
  exec (activate_stream Outbound cls) t = Ok t' ->
  sent_messages (new_calls t t')
    = [MByte MSG_NEWKEYS]
        :: (if ext_info_due t
            then [ext_info_message (preferred_pubkeys t)] else []) /\
  (exists earlier,
      rev (without_logs (new_calls t t'))
      = ExpectPacket MSG_NEWKEYS
          :: (if ext_info_due t
              then [SendMessage (ext_info_message (preferred_pubkeys t))]
              else [])
          ++ earlier /\
      sent_messages earlier = [[MByte MSG_NEWKEYS]]) /\
  ext_info_message (preferred_pubkeys t)
    = [MByte MSG_EXT_INFO; MInt 1; MString "server-sig-algs";
       MString (join "," (preferred_pubkeys t))].
Proof.
  intros Hnone. revert t'.
  unfold exec at 1. rewrite (activate_on_none _ _ _ Hnone).
  destruct (none_cases _ t Hnone) as [[Hn1 Hn2] | [[Hn1 Hn2] | [Hn1 Hn2]]];
    simpl in Hn1, Hn2; apply wp_exec.
  all: wp_run ltac:(rewrite ?Hn1, ?Hn2).
  all: unfold ext_info_due, remote_ext_info_is;
    match goal with H : _ && _ && _ = _ |- _ => rewrite !H end.
  all: added.
  all: (split; [reflexivity | split; [|reflexivity]]).
  all: eexists; split; reflexivity.
Qed.

Lemma compression_due_iff d t entry :
  is_Some (compression_due d t entry) <->
  is_Some (compressor_class d entry) /\
  (compression_of d t <> "zlib@openssh.com" \/ authenticated t = true).
Proof.
  unfold compression_due.
  destruct (compressor_class d entry) as [c|];
    destruct (String.eqb_spec (compression_of d t) "zlib@openssh.com");
    destruct (authenticated t); simpl; rewrite ?is_Some_alt;
    intuition congruence.
Qed.

(** C10.  When the null-handling branch returns, the stream's compression
    name has an entry in [_compression_info]; a compressor (an instance of
    the entry's class for the stream) is installed exactly when that class
    is not [None] and either the name is not [zlib@openssh.com] or the
    transport is authenticated.  Otherwise no compressor call is made and
    the stream keeps the compressor it had; the other stream's compressor is
    never touched. *)
Theorem compression_setup (d : Stream) (cls : ClassState) (t t' : Transport) :
  none_negotiated d t ->
  exec (activate_stream d cls) t = Ok t' ->
  exists entry,
    _compression_info cls !! compression_of d t = Some entry /\
    List.filter is_set_compressor (new_calls t t')
      = match compression_due d t entry with
        | Some c => [set_compressor_call d c]
        | None => []
        end /\
    compressor d (packetizer t')
      = match compression_due d t entry with
        | Some c => Some c
        | None => compressor d (packetizer t)
        end /\
    compressor (opposite d) (packetizer t')
      = compressor (opposite d) (packetizer t) /\
    (is_Some (compression_due d t entry) <->
     is_Some (compressor_class d entry) /\
     (compression_of d t <> "zlib@openssh.com" \/ authenticated t = true)).
Proof.
  intros Hnone. revert t'.
  unfold exec at 1. rewrite (activate_on_none _ _ _ Hnone).
  destruct (none_cases d t Hnone) as [[Hn1 Hn2] | [[Hn1 Hn2] | [Hn1 Hn2]]];
    destruct d; simpl in Hn1, Hn2; apply wp_exec.
  all: wp_run ltac:(rewrite ?Hn1, ?Hn2).
  all: eexists; (split; [eassumption|]).
  all: split; [|split; [|split; [|apply compression_due_iff]]].
  all: unfold compression_due; cbn [compressor_class compression_of];
    repeat match goal with
           | H : fst _ = _ |- _ => rewrite !H
           | H : snd _ = _ |- _ => rewrite !H
           | H : _ || _ = _ |- _ => rewrite !H
           end;
    added; reflexivity.
Qed.

End Properties.


(** ** Construction and the preference lists *)

(** C7, as amended.  Constructing a transport allocates a new object whose
    cipher and MAC preference lists are the parent's lists with ["none"]
    appended; every other object of the process is left as it was.  The
    class tables are updated in place, under the key ["none"] only: every
    other entry, the compression table and the class's own preference lists
    are unchanged, and a construction after the first leaves the tables as
    they are.  The two assignments of the demo programs put ["none"] first
    in both lists of the new object, followed by the other names in their
    order, and touch nothing else. *)
Theorem construction_effects (_filter_algorithm : list string -> list string)
    (base base' : Transport) (p : Process) :
  let oid := fst (new_NoneCipherTransport _filter_algorithm base p) in
  let p' := snd (new_NoneCipherTransport _filter_algorithm base p) in
  let cls := class_state p in
  let cls' := class_state p' in
  objects p !! oid = None /\
  (exists self,
      objects p' !! oid = Some self /\
      _preferred_ciphers self
        = Some (preferred_ciphers _filter_algorithm cls base ++ ["none"]) /\
      _preferred_macs self
        = Some (preferred_macs _filter_algorithm cls base ++ ["none"])) /\
  delete oid (objects p') = objects p /\
  _cipher_info cls' = <["none" := none_cipher_info]> (_cipher_info cls) /\
  _mac_info cls' = <["none" := none_mac_info]> (_mac_info cls) /\
  delete "none" (_cipher_info cls') = delete "none" (_cipher_info cls) /\
  delete "none" (_mac_info cls') = delete "none" (_mac_info cls) /\
  _compression_info cls' = _compression_info cls /\
  class_preferred_ciphers cls' = class_preferred_ciphers cls /\
  class_preferred_macs cls' = class_preferred_macs cls /\
  class_state (snd (new_NoneCipherTransport _filter_algorithm base' p')) = cls' /\
  (let p'' := snd (demo_transport _filter_algorithm base p) in
   fst (demo_transport _filter_algorithm base p) = oid /\
   class_state p'' = cls' /\
   delete oid (objects p'') = objects p /\
   exists self ciphers macs,
     objects p'' !! oid = Some self /\
     _preferred_ciphers self = Some ("none" :: ciphers) /\
     _preferred_macs self = Some ("none" :: macs) /\
     ("none" ∉ ciphers) /\ ("none" ∉ macs) /\
     ciphers = filter (fun c => c <> "none")
                 (_filter_algorithm
                    (preferred_ciphers _filter_algorithm cls base ++ ["none"])) /\
     macs = filter (fun m => m <> "none")
              (_filter_algorithm
                 (preferred_macs _filter_algorithm cls base ++ ["none"]))).
Proof.
  unfold demo_transport, new_NoneCipherTransport, __init__. cbn zeta. simpl.
  assert (Hfresh : objects p !! fresh (dom (objects p)) = None).
  { apply not_elem_of_dom, is_fresh. }
  repeat split.
  - exact Hfresh.
  - eexists. split; [apply lookup_insert_eq|]. split; reflexivity.
  - rewrite delete_insert_eq. apply delete_id, Hfresh.
  - apply delete_insert_eq.
  - apply delete_insert_eq.
  - unfold set_mac_info, set_cipher_info. simpl. f_equal; apply insert_insert_eq.
  - rewrite alter_insert_eq, delete_insert_eq.
    apply delete_id, Hfresh.
  - eexists _, _, _. rewrite alter_insert_eq.
    split; [apply lookup_insert_eq|].
    split; [reflexivity|]. split; [reflexivity|].
    split; [|split; [|split; reflexivity]].
    + intros [H _]%list_elem_of_filter. congruence.
    + intros [H _]%list_elem_of_filter. congruence.
Qed.


(** ** The server interface *)

(** C8.  The demo server's handler answers [AUTH_SUCCESSFUL] to every
    none-authentication request and [AUTH_FAILED] to every password and
    public-key request, whatever the user name, the credential and its own
    state; the methods it reports as allowed are ["none"] alone; it accepts
    a channel request of kind ["session"] and refuses every other kind as
    administratively prohibited. *)
Theorem allow_all_server_decisions (self : AllowAllServer.t)
    (username password kind : string) (key : bytes) (chanid : Z) :
  fst (AllowAllServer.check_auth_none username self) = AUTH_SUCCESSFUL /\
  fst (AllowAllServer.check_auth_password username password self) = AUTH_FAILED /\
  fst (AllowAllServer.check_auth_publickey username key self) = AUTH_FAILED /\
  split_on ","%char (fst (AllowAllServer.get_allowed_auths username self)) = ["none"] /\
  fst (AllowAllServer.check_channel_request kind chanid self)
    = (if decide (kind = "session") then OPEN_SUCCEEDED
       else OPEN_FAILED_ADMINISTRATIVELY_PROHIBITED).
Proof.
  repeat split.
  unfold AllowAllServer.check_channel_request.
  destruct (String.eqb_spec kind "session"); simpl;
    destruct (decide (kind = "session")); congruence.
Qed.

(** ** Runs on sample transports *)

Lemma sample_run_returns (d : Stream) :
  exec (sample_activate d null_class) first_handshake
  = Ok (sample_run d first_handshake).
Proof. destruct d; vm_compute; reflexivity. Qed.

Lemma activation_dispatch_witness :
  none_negotiated Inbound first_handshake /\
  sample_activate Inbound null_class first_handshake
  = _activate_inbound_none sample_compute_key sample_get_engine null_class
                           first_handshake.
Proof.
  assert (H : none_negotiated Inbound first_handshake) by (left; reflexivity).
  split; [exact H|].
  exact (proj1 (activation_dispatch sample_compute_key sample_get_engine
                  sample_parent sample_parent sample_need_rekey
                  null_class first_handshake) H).
Defined.


Lemma null_path_key_derivation_witness :
  none_negotiated Inbound first_handshake /\
  exec (sample_activate Inbound null_class) first_handshake
  = Ok (sample_run Inbound first_handshake) /\
  key_derivations (new_calls first_handshake (sample_run Inbound first_handshake))
  = null_path_key_derivations null_class Inbound first_handshake.
Proof.
  assert (H : none_negotiated Inbound first_handshake) by (left; reflexivity).
  split; [exact H|]. split; [apply sample_run_returns|].
  exact (proj1 (null_path_key_derivation sample_compute_key sample_get_engine
                  sample_parent sample_parent sample_need_rekey
                  Inbound null_class first_handshake
                  (sample_run Inbound first_handshake)
                  H (sample_run_returns Inbound))).
Defined.



Lemma ext_info_emission_witness :
  none_negotiated Outbound first_handshake /\
  exec (sample_activate Outbound null_class) first_handshake
  = Ok (sample_run Outbound first_handshake) /\
  sent_messages (new_calls first_handshake (sample_run Outbound first_handshake))
  = [MByte MSG_NEWKEYS]
      :: (if ext_info_due first_handshake
          then [ext_info_message (preferred_pubkeys first_handshake)] else []).
Proof.
  assert (H : none_negotiated Outbound first_handshake) by (left; reflexivity).
  split; [exact H|]. split; [apply sample_run_returns|].
  exact (proj1 (ext_info_emission sample_compute_key sample_get_engine
                  sample_parent sample_parent sample_need_rekey
                  null_class first_handshake
                  (sample_run Outbound first_handshake)
                  H (sample_run_returns Outbound))).
Defined.

Lemma compression_setup_witness :
  none_negotiated Inbound first_handshake /\
  exec (sample_activate Inbound null_class) first_handshake
  = Ok (sample_run Inbound first_handshake) /\
  exists entry,
    _compression_info null_class !! compression_of Inbound first_handshake
    = Some entry /\
    List.filter is_set_compressor
      (new_calls first_handshake (sample_run Inbound first_handshake))
    = match compression_due Inbound first_handshake entry with
      | Some c => [set_compressor_call Inbound c]
      | None => []
      end.
Proof.
  assert (H : none_negotiated Inbound first_handshake) by (left; reflexivity).
  split; [exact H|]. split; [apply sample_run_returns|].
  destruct (compression_setup sample_compute_key sample_get_engine
              sample_parent sample_parent sample_need_rekey
              Inbound null_class first_handshake
              (sample_run Inbound first_handshake)
              H (sample_run_returns Inbound))
    as (entry & Hentry & Hcalls & _).
  exists entry. split; [exact Hentry | exact Hcalls].
Defined.

(** ** Where the code departs from the specification *)

(** C3 as stated fails: with the cipher ["none"] negotiated, inbound
    activation returns without a single key derivation. *)
Lemma null_cipher_derives_no_key :
  cipher_of Inbound first_handshake = "none" /\
  exec (sample_activate Inbound null_class) first_handshake
  = Ok (sample_run Inbound first_handshake) /\
  key_derivations (calls (sample_run Inbound first_handshake)) = [].
Proof.
  split; [reflexivity|]. split; [apply sample_run_returns|].
  vm_compute. reflexivity.
Qed.

(** C6 as stated fails: at a rekey after authentication, the extension-info
    message already sent in the first handshake is sent again. *)
Lemma ext_info_sent_again_on_rekey :
  authenticated at_rekey = true /\
  in_kex at_rekey = true /\
  List.filter is_ext_info (sent_messages (calls at_rekey))
  = [ext_info_message (preferred_pubkeys at_rekey)] /\
  exec (sample_activate Outbound null_class) at_rekey
  = Ok (sample_run Outbound at_rekey) /\
  List.filter is_ext_info (sent_messages (calls (sample_run Outbound at_rekey)))
  = [ext_info_message (preferred_pubkeys at_rekey);
     ext_info_message (preferred_pubkeys at_rekey)].
Proof.
  split; [vm_compute; reflexivity|].
  split; [vm_compute; reflexivity|].
  split; [vm_compute; reflexivity|].
  split; vm_compute; reflexivity.
Qed.

(** C7 as stated fails: the class tables are not immutable.  Constructing a
    transport changes the cipher table that the transport already there
    shares, while that transport itself is left as it was. *)
Lemma construction_updates_shared_tables :
  let p' := snd (new_NoneCipherTransport id
                   (negotiated false false false "none" "none" "none")
                   sample_process) in
  objects p' !! 0%nat = objects sample_process !! 0%nat /\
  _cipher_info (class_state sample_process) !! "none" = None /\
  _cipher_info (class_state p') !! "none" = Some none_cipher_info /\
  _cipher_info (class_state p') <> _cipher_info (class_state sample_process).
Proof.
  cbv zeta.
  assert (H1 : _cipher_info (class_state sample_process) !! "none" = None)
    by (vm_compute; reflexivity).
  assert (H2 : _cipher_info
                 (class_state
                    (snd (new_NoneCipherTransport id
                            (negotiated false false false "none" "none" "none")
                            sample_process))) !! "none"
               = Some none_cipher_info)
    by apply lookup_insert_eq.
  split; [vm_compute; reflexivity|].
  split; [exact H1|]. split; [exact H2|].
  intros E. rewrite E, H1 in H2. discriminate.
Qed.


(** * Further properties of the code *)

(** ** Outcomes of a run, returned or raised

    [outcome m R t] generalises [wp] to the runs that raise; its rules again
    follow the statements of the code. *)

Lemma outcome_bind {A B} (m : M A) (k : A -> M B) R t :
  outcome m (fun r => match r with
                      | Ok (a, t1) => outcome (k a) R t1
                      | Raise e => R (Raise e)
                      end) t ->
  outcome (mbind k m) R t.
Proof.
  unfold outcome, mbind, M_mbind, M_bind.
  destruct (m t) as [[a t1]|e]; auto.
Qed.

Lemma outcome_ret {A} (a : A) (R : result (A * Transport) -> Prop) t :
  R (Ok (a, t)) -> outcome (mret a) R t.
Proof. auto. Qed.

Lemma outcome_attr {A} (f : Transport -> A) (R : result (A * Transport) -> Prop) t :
  (forall a, a = f t -> R (Ok (a, t))) -> outcome (attr f) R t.
Proof. intros H. apply H. reflexivity. Qed.

Lemma outcome_update (g : Transport -> Transport) (R : result (unit * Transport) -> Prop) t :
  R (Ok (tt, g t)) -> outcome (update g) R t.
Proof. auto. Qed.

Lemma outcome_getitem {V} (d : gmap string V) key (R : result (V * Transport) -> Prop) t :
  (forall v, d !! key = Some v -> R (Ok (v, t))) ->
  (d !! key = None -> R (Raise (KeyError key))) ->
  outcome (getitem d key) R t.
Proof.
  unfold outcome, getitem. intros H1 H2.
  destruct (d !! key) as [v|]; [apply H1 | apply H2]; reflexivity.
Qed.

Lemma outcome_raise {A} e (R : result (A * Transport) -> Prop) t :
  R (Raise e) -> outcome (raise e) R t.
Proof. auto. Qed.

Lemma outcome_if {A} (c : bool) (m1 m2 : M A) R t :
  (c = true -> outcome m1 R t) -> (c = false -> outcome m2 R t) ->
  outcome (if c then m1 else m2) R t.
Proof. destruct c; auto. Qed.

Lemma outcome_exec {A} (m : M A) (P : result Transport -> Prop) t :
  outcome m (fun r => match r with
                      | Ok (_, t') => P (Ok t')
                      | Raise e => P (Raise e)
                      end) t ->
  P (exec m t).
Proof. unfold outcome, exec. destruct (m t) as [[a t1]|e]; auto. Qed.

Lemma exec_ext {A} (m m' : M A) t : m t = m' t -> exec m t = exec m' t.
Proof. unfold exec. intros ->. reflexivity. Qed.

Ltac out_step tac :=
  lazymatch goal with
  | |- outcome (mbind _ _) _ _ => apply outcome_bind
  | |- outcome (mret _) _ _ => apply outcome_ret; beta
  | |- outcome (attr _) _ _ =>
      apply outcome_attr;
      let a := fresh "a" in
      let H := fresh "H" in
      intros a H; unfold remote_ext_info_is in H; simpl in H; subst a; beta
  | |- outcome (update _) _ _ => apply outcome_update; beta
  | |- outcome (getitem _ _) _ _ =>
      tac; apply outcome_getitem;
      [ let v := fresh "v" in
        let H := fresh "Hget" in
        intros v H; beta
      | let H := fresh "Hmiss" in
        intros H; beta ]
  | |- outcome (raise _) _ _ => apply outcome_raise; beta
  | |- outcome (if _ then _ else _) _ _ =>
      tac; tests;
      lazymatch goal with
      | |- outcome (if true then _ else _) _ _ => beta
      | |- outcome (if false then _ else _) _ _ => beta
      | |- outcome (if _ then _ else _) _ _ =>
          let H := fresh "Htest" in
          apply outcome_if; intros H; fact H
      | |- _ => idtac
      end
  | |- outcome (match ?x with _ => _ end) _ _ =>
      tac; tests;
      lazymatch goal with
      | |- outcome (match ?x with _ => _ end) _ _ => destruct x eqn:?
      | |- _ => idtac
      end
  end.

Ltac out_run tac := wp_unfold; repeat (out_step tac).

Ltac facts_in_goal :=
  repeat match goal with
         | H : ?x = _ |- context [?x] =>
             lazymatch x with
             | context [set_calls] => fail
             | _ => progress rewrite H
             end
         end.

Ltac error_case tac :=
  unfold null_path_error, engine_error, mac_error, compression_error,
    stream_engine, stream_iv, stream_operation, wire_direction;
  cbn [cipher_of mac_of compression_of];
  tac; repeat (progress (facts_in_goal; tests)); reflexivity.

Lemma new_calls_app t t' l : calls t' = calls t ++ l -> new_calls t t' = l.
Proof. unfold new_calls. intros ->. apply drop_app_length. Qed.

Lemma attributes_read t1 t2 d :
  attributes t1 = attributes t2 ->
  cipher_of d t1 = cipher_of d t2 /\ mac_of d t1 = mac_of d t2 /\
  compression_of d t1 = compression_of d t2 /\
  secrets t1 = secrets t2 /\ server_mode t1 = server_mode t2.
Proof.
  unfold attributes, negotiated_names. intros [= ? ? ? ? ? ? ? ? ? ? ? ? ? ? ? ?].
  destruct d; simpl; auto.
Qed.

Section Outcome.

Variable parent_compute_key : SessionSecrets -> string -> Z -> bytes.
Variable parent_get_engine :
  string -> bytes -> option bytes -> Operation -> bool -> result Engine.
Variable parent_activate_inbound : ClassState -> M unit.
Variable parent_activate_outbound : ClassState -> M unit.
Variable need_rekey : Packetizer -> bool.

Local Notation "'activate_stream'" :=
  (activate parent_compute_key parent_get_engine parent_activate_inbound
            parent_activate_outbound need_rekey) (only parsing).
Local Notation "'stream_error'" :=
  (null_path_error parent_compute_key parent_get_engine) (only parsing).
Local Notation "'installed'" :=
  (stream_state parent_compute_key parent_get_engine) (only parsing).

Local Notation "'engine_of'" :=
  (stream_engine parent_compute_key parent_get_engine) (only parsing).

Lemma null_path_outcome d cls t :
  none_negotiated d t ->
  match exec (activate_stream d cls) t with
  | Ok t' =>
      stream_error cls d t = None /\
      attributes t' = attributes t /\
      (exists l,
          calls t' = calls t ++ l /\
          List.filter is_expect_packet l
          = match d with
            | Inbound => []
            | Outbound => [ExpectPacket MSG_NEWKEYS]
            end /\
          match d with
          | Inbound => sent_messages l = []
          | Outbound => last l = Some (ExpectPacket MSG_NEWKEYS)
          end) /\
      in_kex t'
        = match d with
          | Inbound => in_kex t
          | Outbound => if need_rekey (packetizer t') then in_kex t else false
          end /\
      _expected_packet t'
        = match d with
          | Inbound => _expected_packet t
          | Outbound => [MSG_NEWKEYS]
          end /\
      (exists info,
          _cipher_info cls !! cipher_of d t = Some info /\
          cipher_state d (packetizer t') = Some (installed cls d t info)) /\
      cipher_state (opposite d) (packetizer t')
        = cipher_state (opposite d) (packetizer t) /\
      seqno (opposite d) (packetizer t') = seqno (opposite d) (packetizer t) /\
      seqno d (packetizer t')
        = (if agreed_on_strict_kex t then 0%Z else seqno d (packetizer t))
  | Raise e => stream_error cls d t = Some e
  end.
Proof.
  intros Hnone.
  pose proof (activate_on_none parent_compute_key parent_get_engine
                parent_activate_inbound parent_activate_outbound need_rekey
                d cls t Hnone) as Hrun.
  destruct (none_cases d t Hnone) as [[Hn1 Hn2] | [[Hn1 Hn2] | [Hn1 Hn2]]];
    destruct d; simpl in Hn1, Hn2;
    rewrite (exec_ext _ _ _ Hrun); clear Hrun;
    match goal with
    | |- context [exec ?m ?t] => pattern (exec m t); apply outcome_exec
    end.
  all: out_run ltac:(rewrite ?Hn1, ?Hn2).
  all: try (match goal with
           | |- context [attributes ?s] =>
               lazymatch s with
               | context [set_calls] => remember s as tf eqn:Etf
               end
           end).
  (* raised *)
  all: lazymatch goal with
       | |- _ = Some _ => error_case ltac:(rewrite ?Hn1, ?Hn2)
       | |- _ => idtac
       end.
  all: (split; [error_case ltac:(rewrite ?Hn1, ?Hn2)|]).
  all: (split; [subst tf; reflexivity|]).
  all: (split;
        [eexists; split;
         [subst tf; simpl; rewrite <- ?app_assoc; simpl; reflexivity|];
         split; reflexivity|]).
  all: (split; [subst tf; simpl; facts_in_goal; reflexivity|]).
  all: (split; [subst tf; reflexivity|]).
  all: (split;
        [eexists; split;
         [cbn [cipher_of]; rewrite ?Hn1; eassumption|];
         subst tf; simpl; f_equal;
         unfold stream_state, stream_engine, stream_iv, stream_operation,
           wire_direction;
         cbn [cipher_of mac_of];
         rewrite ?Hn1, ?Hn2; repeat (progress (facts_in_goal; tests));
         try reflexivity;
         simpl; facts_in_goal; reflexivity|]).
  all: (split; [subst tf; reflexivity|]).
  all: (split; [subst tf; reflexivity|]).
  all: subst tf; simpl; facts_in_goal; reflexivity.
Qed.

Lemma stream_error_attributes cls d t1 t2 :
  attributes t1 = attributes t2 -> stream_error cls d t1 = stream_error cls d t2.
Proof.
  intros H. destruct (attributes_read t1 t2 d H) as (Hc & Hm & Hk & Hs & Hsm).
  unfold null_path_error, engine_error, mac_error, compression_error,
    stream_engine, stream_iv.
  rewrite Hc, Hm, Hk, Hs, Hsm. reflexivity.
Qed.

Lemma stream_state_attributes cls d t1 t2 info :
  attributes t1 = attributes t2 ->
  installed cls d t1 info = installed cls d t2 info.
Proof.
  intros H. destruct (attributes_read t1 t2 d H) as (Hc & Hm & Hk & Hs & Hsm).
  unfold stream_state, stream_engine, stream_iv.
  rewrite Hc, Hm, Hs, Hsm. reflexivity.
Qed.

Lemma none_negotiated_attributes d t1 t2 :
  attributes t1 = attributes t2 -> none_negotiated d t1 -> none_negotiated d t2.
Proof.
  intros H. destruct (attributes_read t1 t2 d H) as (Hc & Hm & _).
  unfold none_negotiated. rewrite Hc, Hm. auto.
Qed.


(** X2.  A null-path activation only reads the transport's attributes
    (role, authentication, strict key exchange, the negotiated names, the
    preference lists, the session secrets, the channel table): they are the
    same afterwards, and the record of calls is only extended. *)
Theorem null_path_frame (d : Stream) (cls : ClassState) (t t' : Transport) :
  none_negotiated d t ->
  exec (activate_stream d cls) t = Ok t' ->
  attributes t' = attributes t /\
  calls t' = calls t ++ new_calls t t'.
Proof.
  intros Hnone Hrun. pose proof (null_path_outcome d cls t Hnone) as H.
  rewrite Hrun in H. destruct H as (_ & HA & (l & Hl & _) & _).
  split; [exact HA|]. rewrite (new_calls_app _ _ _ Hl). exact Hl.
Qed.

(** X3.  Inbound, a null-path activation sends nothing, awaits nothing and
    leaves [in_kex] and the expected packet as they were.  Outbound, it ends
    by awaiting NEWKEYS, which becomes the only expected packet, and clears
    [in_kex] unless the packetizer asks for another rekey. *)
Theorem null_path_control_state (d : Stream) (cls : ClassState)
    (t t' : Transport) :
  none_negotiated d t ->
  exec (activate_stream d cls) t = Ok t' ->
  match d with
  | Inbound =>
      in_kex t' = in_kex t /\
      _expected_packet t' = _expected_packet t /\
      sent_messages (new_calls t t') = [] /\
      List.filter is_expect_packet (new_calls t t') = []
  | Outbound =>
      in_kex t' = (if need_rekey (packetizer t') then in_kex t else false) /\
      _expected_packet t' = [MSG_NEWKEYS] /\
      List.filter is_expect_packet (new_calls t t') = [ExpectPacket MSG_NEWKEYS] /\
      last (new_calls t t') = Some (ExpectPacket MSG_NEWKEYS)
  end.
Proof.
  intros Hnone Hrun. pose proof (null_path_outcome d cls t Hnone) as H.
  rewrite Hrun in H.
  destruct H as (_ & _ & (l & Hl & Hexp & Hsent) & Hkex & Hpkt & _).
  rewrite (new_calls_app _ _ _ Hl). destruct d; auto.
Qed.


(** X5.  With a MAC other than ["none"] (the cipher is then ["none"], and
    its entry not AEAD), the MAC's table entry names a class, and the state
    handed over has that class as MAC engine, the entry's size, a key of the
    class's digest size derived in the stream's integrity slot (E client to
    server, F server to client), the encrypt-then-MAC flag for an
    [etm@openssh.com] name, and no cipher engine. *)
Theorem null_path_mac_state (d : Stream) (cls : ClassState)
    (t t' : Transport) (info : CipherInfo) :
  none_negotiated d t ->
  exec (activate_stream d cls) t = Ok t' ->
  _cipher_info cls !! cipher_of d t = Some info ->
  mac_of d t <> "none" ->
  default false (ci_is_aead info) = false ->
  exists mac_info h st,
    _mac_info cls !! mac_of d t = Some mac_info /\
    mi_class mac_info = Some h /\
    cipher_state d (packetizer t') = Some st /\
    block_engine st = None /\
    mac_engine st = Some h /\
    mac_size st = mi_size mac_info /\
    mac_key st
      = Some (parent_compute_key (secrets t)
                (slot_letter IntegrityKey (wire_direction d (server_mode t)))
                (digest_size h)) /\
    etm st = str_contains "etm@openssh.com" (mac_of d t).
Proof.
  intros Hnone Hrun Hinfo Hm Haead.
  pose proof (null_path_outcome d cls t Hnone) as H. rewrite Hrun in H.
  destruct H as (HE & _ & _ & _ & _ & (info' & Hinfo' & Hst) & _).
  rewrite Hinfo in Hinfo'. injection Hinfo' as <-.
  apply String.eqb_neq in Hm.
  assert (Hc : cipher_of d t = "none").
  { destruct Hnone as [Hn|Hn]; [exact Hn|].
    rewrite Hn in Hm. discriminate. }
  unfold null_path_error in HE. rewrite Hinfo in HE.
  unfold engine_error, mac_error in HE.
  rewrite Hc, Hm, Haead in HE. simpl in HE.
  destruct (_mac_info cls !! mac_of d t) as [mac_info|] eqn:Hmac;
    [|discriminate].
  destruct (mi_class mac_info) as [h|] eqn:Hh; [|discriminate].
  exists mac_info, h, (installed cls d t info).
  split; [reflexivity|]. split; [exact Hh|]. split; [exact Hst|].
  unfold stream_state. rewrite Hc, Hm, Haead, Hmac. simpl. rewrite Hh. simpl.
  repeat split; reflexivity.
Qed.



End Outcome.

(** ** Construction, then activation *)


(** ** The engine factory *)


(** ** The demo server's handler over a whole session *)

Lemma serve_effect (self : AllowAllServer.t) (r : AllowAllServer.request) :
  AllowAllServer.event (AllowAllServer.serve self r)
  = AllowAllServer.event self || AllowAllServer.sets_event r /\
  exists line,
    AllowAllServer.logged (AllowAllServer.serve self r)
    = AllowAllServer.logged self ++ [line].
Proof.
  destruct r; simpl; unfold AllowAllServer.check_channel_request;
    try destruct (String.eqb _ _); simpl;
    rewrite ?orb_false_r, ?orb_true_r; eauto.
Qed.


(** ** The reordering of the demo programs *)

Lemma none_first_filter (keep : string -> bool) (l : list string) :
  filter (fun c => c <> "none")
    (List.filter keep (filter (fun c => c <> "none") (List.filter keep l)))
  = filter (fun c => c <> "none") (List.filter keep l).
Proof.
  induction l as [|a l IH]; [reflexivity|].
  simpl. destruct (keep a) eqn:Ha; [|exact IH].
  rewrite filter_cons. destruct (decide (a <> "none")) as [Hn|Hn].
  - simpl. rewrite Ha, filter_cons, decide_True by exact Hn.
    f_equal. exact IH.
  - exact IH.
Qed.

Lemma none_first_again (keep : string -> bool) (l : list string) :
  filter (fun c => c <> "none")
    (List.filter keep
       ("none" :: filter (fun c => c <> "none") (List.filter keep l)))
  = filter (fun c => c <> "none") (List.filter keep l).
Proof.
  simpl. destruct (keep "none").
  - rewrite filter_cons, decide_False by (intros H; apply H; reflexivity).
    apply none_first_filter.
  - apply none_first_filter.
Qed.

(** X10.  When the parent's [_filter_algorithm] drops the disabled names and
    keeps the others in order, the two assignments that put ["none"] first
    are idempotent: made a second time on the same transport, they leave
    both preference lists, and the transport, as the first time. *)
Theorem force_none_first_idempotent
    (_filter_algorithm : list string -> list string) (keep : string -> bool)
    (cls : ClassState) (t : Transport) :
  (forall l, _filter_algorithm l = List.filter keep l) ->
  force_none_first _filter_algorithm cls
    (force_none_first _filter_algorithm cls t)
  = force_none_first _filter_algorithm cls t.
Proof.
  intros Hfilter. apply Transport_ext; try reflexivity.
  unfold attributes, force_none_first, preferred_ciphers, preferred_macs.
  simpl. rewrite !Hfilter, !none_first_again. reflexivity.
Qed.

(** ** Sample runs of the properties *)

Lemma mixed_run_returns (d : Stream) :
  exec (sample_activate d null_class) mixed_handshake
  = Ok (sample_run d mixed_handshake).
Proof. destruct d; vm_compute; reflexivity. Qed.

Lemma mac_run_returns (d : Stream) :
  exec (sample_activate d null_class) mac_handshake
  = Ok (sample_run d mac_handshake).
Proof. destruct d; vm_compute; reflexivity. Qed.


Lemma null_path_frame_witness :
  none_negotiated Outbound first_handshake /\
  exec (sample_activate Outbound null_class) first_handshake
  = Ok (sample_run Outbound first_handshake) /\
  attributes (sample_run Outbound first_handshake) = attributes first_handshake.
Proof.
  assert (H : none_negotiated Outbound first_handshake) by (left; reflexivity).
  split; [exact H|]. split; [apply sample_run_returns|].
  exact (proj1 (null_path_frame sample_compute_key sample_get_engine
                  sample_parent sample_parent sample_need_rekey
                  Outbound null_class first_handshake _ H
                  (sample_run_returns Outbound))).
Defined.

Lemma null_path_control_state_witness :
  none_negotiated Outbound first_handshake /\
  exec (sample_activate Outbound null_class) first_handshake
  = Ok (sample_run Outbound first_handshake) /\
  _expected_packet (sample_run Outbound first_handshake) = [MSG_NEWKEYS].
Proof.
  assert (H : none_negotiated Outbound first_handshake) by (left; reflexivity).
  split; [exact H|]. split; [apply sample_run_returns|].
  exact (proj1 (proj2
           (null_path_control_state sample_compute_key sample_get_engine
              sample_parent sample_parent sample_need_rekey
              Outbound null_class first_handshake _ H
              (sample_run_returns Outbound)))).
Defined.


Lemma null_path_mac_state_witness :
  none_negotiated Inbound mac_handshake /\
  exec (sample_activate Inbound null_class) mac_handshake
  = Ok (sample_run Inbound mac_handshake) /\
  exists mac_info,
    _mac_info null_class !! "hmac-sha2-256" = Some mac_info.
Proof.
  assert (H : none_negotiated Inbound mac_handshake) by (left; reflexivity).
  split; [exact H|]. split; [apply mac_run_returns|].
  assert (Hinfo : _cipher_info null_class !! cipher_of Inbound mac_handshake
                  = Some none_cipher_info) by (vm_compute; reflexivity).
  assert (Hmac : mac_of Inbound mac_handshake <> "none")
    by (vm_compute; discriminate).
  assert (Haead : default false (ci_is_aead none_cipher_info) = false)
    by reflexivity.
  destruct (null_path_mac_state sample_compute_key sample_get_engine
              sample_parent sample_parent sample_need_rekey
              Inbound null_class mac_handshake _ none_cipher_info H
              (mac_run_returns Inbound) Hinfo Hmac Haead)
    as (mac_info & h & st & Hm & _).
  exists mac_info. exact Hm.
Defined.



Lemma force_none_first_idempotent_witness :
  (forall l, List.filter keep_every l = List.filter keep_every l) /\
  force_none_first (List.filter keep_every) null_class
    (force_none_first (List.filter keep_every) null_class first_handshake)
  = force_none_first (List.filter keep_every) null_class first_handshake.
Proof.
  assert (H : forall l, List.filter keep_every l = List.filter keep_every l)
    by (intros l; reflexivity).
  split; [exact H|].
  exact (force_none_first_idempotent (List.filter keep_every) keep_every
           null_class first_handshake H).
Defined.

